(** * OxiBot WhatsApp bridge: a shallow embedding of [bridge/src/whatsapp.ts]
      and [bridge/src/server.ts], and the properties of its session manager,
      message normalizer and relay server. *)

From Stdlib Require Import String Ascii List ZArith Lia Bool Arith DecimalString.
Import ListNotations.
Local Open Scope list_scope.
Local Open Scope string_scope.
Set Warnings "-register-all".

(* ===================================================================== *)
(** ** The JavaScript values the bridge handles *)
(* ===================================================================== *)

Module Js.

(** A thrown [Error] object: its [name] and [message]. *)
Record JsError := mkError { ename : string; emessage : string }.

(** [String(error)], i.e. [Error.prototype.toString]. *)
Definition String_error (e : JsError) : string :=
  match ename e, emessage e with
  | EmptyString, m => m
  | n, EmptyString => n
  | n, m => n ++ ": " ++ m
  end.

(** [new Error(msg)]. *)
Definition Error (msg : string) : JsError := mkError "Error" msg.
Definition TypeError (msg : string) : JsError := mkError "TypeError" msg.
Definition SyntaxError (msg : string) : JsError := mkError "SyntaxError" msg.

(** A value of type [string | null | undefined]: [None] is null/undefined. *)
Definition truthy (s : option string) : bool :=
  match s with
  | Some (String _ _) => true
  | _ => false
  end.

(** [s || d] for [s : string | null | undefined]. *)
Definition or_else (s : option string) (d : string) : string :=
  match s with
  | Some v => if truthy s then v else d
  | None => d
  end.

(** [s.endsWith(suffix)]. *)
Definition endsWith (s suffix : string) : bool :=
  let n := String.length s in
  let m := String.length suffix in
  if Nat.leb m n then String.eqb (substring (n - m) m s) suffix else false.

(** JSON-shaped values.  A number is carried by its canonical rendering
    ([Number::toString]), the only operation the bridge applies to one; an
    object holds its own properties in enumeration order, keys distinct. *)
Inductive Value :=
| VUndefined
| VNull
| VBool (b : bool)
| VNumber (repr : string)
| VString (s : string)
| VArray (xs : list Value)
| VObject (props : list (string * Value)).

Fixpoint lookup (k : string) (props : list (string * Value)) : option Value :=
  match props with
  | [] => None
  | (k', v) :: rest => if String.eqb k k' then Some v else lookup k rest
  end.

(** [v.k] for a property name [k] that no prototype defines
    ([type], [to], [text]). *)
Definition getProp (v : Value) (k : string) : JsError + Value :=
  match v with
  | VUndefined =>
      inl (TypeError ("Cannot read properties of undefined (reading '" ++ k ++ "')"))
  | VNull =>
      inl (TypeError ("Cannot read properties of null (reading '" ++ k ++ "')"))
  | VObject props =>
      inr (match lookup k props with Some x => x | None => VUndefined end)
  | _ => inr VUndefined
  end.

(** [v === lit] for a string literal [lit]. *)
Definition strict_eq (v : Value) (lit : string) : bool :=
  match v with
  | VString s => String.eqb s lit
  | _ => false
  end.

(** [ToString(v)], as a template literal applies it.  An object with an own
    [toString] property (never callable in parsed JSON) has no primitive
    value: the inherited [valueOf] returns the object itself. *)
Fixpoint ToString (v : Value) : JsError + string :=
  match v with
  | VUndefined => inr "undefined"
  | VNull => inr "null"
  | VBool true => inr "true"
  | VBool false => inr "false"
  | VNumber r => inr r
  | VString s => inr s
  | VArray xs =>
      let elem x :=
        match x with
        | VUndefined | VNull => inr ""
        | _ => ToString x
        end in
      (fix join (l : list Value) : JsError + string :=
         match l with
         | [] => inr ""
         | [x] => elem x
         | x :: rest =>
             match elem x with
             | inl e => inl e
             | inr s =>
                 match join rest with
                 | inl e => inl e
                 | inr r => inr (s ++ "," ++ r)
                 end
             end
         end) xs
  | VObject props =>
      match lookup "toString" props with
      | None => inr "[object Object]"
      | Some _ => inl (TypeError "Cannot convert object to primitive value")
      end
  end.

(** *** [JSON.stringify] *)

Definition hexdigit (n : nat) : ascii :=
  match n with
  | 0 => "0" | 1 => "1" | 2 => "2" | 3 => "3" | 4 => "4" | 5 => "5"
  | 6 => "6" | 7 => "7" | 8 => "8" | 9 => "9" | 10 => "a" | 11 => "b"
  | 12 => "c" | 13 => "d" | 14 => "e" | _ => "f"
  end%char.

Definition dquote : string := String "034"%char "".

Definition escape_char (c : ascii) : string :=
  let n := nat_of_ascii c in
  if Nat.eqb n 34 then "\" ++ dquote
  else if Nat.eqb n 92 then "\\"
  else if Nat.eqb n 8 then "\b"
  else if Nat.eqb n 12 then "\f"
  else if Nat.eqb n 10 then "\n"
  else if Nat.eqb n 13 then "\r"
  else if Nat.eqb n 9 then "\t"
  else if Nat.ltb n 32 then
    "\u00" ++ String (hexdigit (n / 16)) (String (hexdigit (n mod 16)) "")
  else String c "".

Fixpoint escape (s : string) : string :=
  match s with
  | EmptyString => ""
  | String c rest => escape_char c ++ escape rest
  end.

(** [QuoteJSONString]. *)
Definition quote (s : string) : string := dquote ++ escape s ++ dquote.

Definition nonfinite (r : string) : bool :=
  String.eqb r "Infinity" || String.eqb r "-Infinity" || String.eqb r "NaN".

(** [SerializeJSONProperty]: [None] is the [undefined] result. *)
Fixpoint serialize (v : Value) : option string :=
  match v with
  | VUndefined => None
  | VNull => Some "null"
  | VBool true => Some "true"
  | VBool false => Some "false"
  | VNumber r => Some (if nonfinite r then "null" else r)
  | VString s => Some (quote s)
  | VArray xs =>
      let elem x := match serialize x with Some s => s | None => "null" end in
      Some ("[" ++
        (fix join (l : list Value) : string :=
           match l with
           | [] => ""
           | [x] => elem x
           | x :: rest => elem x ++ "," ++ join rest
           end) xs ++ "]")
  | VObject props =>
      Some ("{" ++
        (fix members (first : bool) (l : list (string * Value)) : string :=
           match l with
           | [] => ""
           | (k, x) :: rest =>
               match serialize x with
               | None => members first rest
               | Some s =>
                   (if first then "" else ",") ++ quote k ++ ":" ++ s
                   ++ members false rest
               end
           end) true props ++ "}")
  end.

(** [JSON.stringify] of an object literal with the given properties. *)
Definition JSON_stringify (props : list (string * Value)) : string :=
  match serialize (VObject props) with
  | Some s => s
  | None => "undefined"
  end.

(** The rendering of an integral number. *)
Definition number (z : Z) : Value := VNumber (NilZero.string_of_int (Z.to_int z)).

End Js.

(* ===================================================================== *)
(** ** Upstream (Baileys) data, as far as the bridge reads it *)
(* ===================================================================== *)

Module Proto.

Record MessageKey := {
  id : option string;
  remoteJid : option string;
  remoteJidAlt : option string;
  fromMe : option bool
}.

Record ExtendedTextMessage := { text : option string }.

(** An image, video or document message. *)
Record MediaMessage := { caption : option string }.

Record AudioMessage := { seconds : Z; ptt : bool }.

(** [rest] holds the fields of the envelope that the bridge never reads. *)
Record Message := {
  conversation : option string;
  extendedTextMessage : option ExtendedTextMessage;
  imageMessage : option MediaMessage;
  videoMessage : option MediaMessage;
  documentMessage : option MediaMessage;
  audioMessage : option AudioMessage;
  rest : list (string * Js.Value)
}.

Record WAMessage := {
  key : MessageKey;
  message : option Message;
  messageTimestamp : Z
}.

(** The payload of [connection.update]. *)
Record Output := { statusCode : option Z }.
Record Boom := { output : option Output }.
Record LastDisconnect := { error : option Boom }.

Record ConnectionState := {
  connection : option string;
  lastDisconnect : option LastDisconnect;
  qr : option string
}.

(** [DisconnectReason.loggedOut] of the upstream library. *)
Definition loggedOut : Z := 401.

End Proto.

(* ===================================================================== *)
(** ** The bridge process: state, effects and the handler monad *)
(* ===================================================================== *)

Import Js.

(** [WebSocket.readyState]. *)
Inductive ReadyState := CONNECTING | OPEN | CLOSING | CLOSED.

Definition is_open (r : ReadyState) : bool :=
  match r with OPEN => true | _ => false end.

(** Calls the bridge makes on its collaborators.  Controller connections
    ([ws] objects) and upstream sockets are named by numbers. *)
Inductive Effect :=
| WsSend (c : nat) (data : string)          (* ws.send(data) *)
| WsClose (c : nat)                         (* ws.close() *)
| WssClose                                  (* wss.close() *)
| MakeSocket (s : nat)                      (* makeWASocket(...), giving s *)
| SockSend (s : nat) (to text : Value)      (* sock.sendMessage(to, {text}) *)
| SockEnd (s : nat)                         (* sock.end(undefined) *)
| SetTimeout (delay : Z)                    (* setTimeout(reconnect, delay) *)
| QrPrint (qr : string).                    (* qrcode.generate(qr, ...) *)

(** The fields of [BridgeServer] and of its [WhatsAppClient], and the part
    of the runtime they rely on: the clock, the pending [setTimeout]
    callbacks (all of them the reconnect closure, kept by deadline), the
    number of upstream sockets made so far, and each [ws] object's
    [readyState]. *)
Record World := mkWorld {
  wss : bool;
  wa : bool;
  clients : list nat;
  sock : option nat;
  reconnecting : bool;
  now : Z;
  timers : list Z;
  made : nat;
  readyState : nat -> ReadyState
}.

Definition set_wss (b : bool) (w : World) : World :=
  mkWorld b (wa w) (clients w) (sock w) (reconnecting w) (now w) (timers w)
          (made w) (readyState w).
Definition set_wa (b : bool) (w : World) : World :=
  mkWorld (wss w) b (clients w) (sock w) (reconnecting w) (now w) (timers w)
          (made w) (readyState w).
Definition set_clients (l : list nat) (w : World) : World :=
  mkWorld (wss w) (wa w) l (sock w) (reconnecting w) (now w) (timers w)
          (made w) (readyState w).
Definition set_sock (s : option nat) (w : World) : World :=
  mkWorld (wss w) (wa w) (clients w) s (reconnecting w) (now w) (timers w)
          (made w) (readyState w).
Definition set_reconnecting (b : bool) (w : World) : World :=
  mkWorld (wss w) (wa w) (clients w) (sock w) b (now w) (timers w)
          (made w) (readyState w).
Definition set_now (t : Z) (w : World) : World :=
  mkWorld (wss w) (wa w) (clients w) (sock w) (reconnecting w) t (timers w)
          (made w) (readyState w).
Definition set_timers (l : list Z) (w : World) : World :=
  mkWorld (wss w) (wa w) (clients w) (sock w) (reconnecting w) (now w) l
          (made w) (readyState w).
Definition set_made (n : nat) (w : World) : World :=
  mkWorld (wss w) (wa w) (clients w) (sock w) (reconnecting w) (now w)
          (timers w) n (readyState w).
Definition set_readyState (c : nat) (r : ReadyState) (w : World) : World :=
  mkWorld (wss w) (wa w) (clients w) (sock w) (reconnecting w) (now w)
          (timers w) (made w)
          (fun x => if Nat.eqb x c then r else readyState w x).

(** A handler either returns or throws; either way it leaves a world and
    the calls it made, oldest first. *)
Inductive Res (A : Type) :=
| Ok (a : A)
| Throw (e : JsError).
Arguments Ok {A} a.
Arguments Throw {A} e.

Definition M (A : Type) : Type := World -> Res A * World * list Effect.

Definition ret {A} (a : A) : M A := fun w => (Ok a, w, []).

Definition bind {A B} (m : M A) (k : A -> M B) : M B :=
  fun w =>
    match m w with
    | (Ok a, w1, out1) =>
        match k a w1 with
        | (r, w2, out2) => (r, w2, (out1 ++ out2)%list)
        end
    | (Throw e, w1, out1) => (Throw e, w1, out1)
    end.

Definition throw {A} (e : JsError) : M A := fun w => (Throw e, w, []).

(** [try { m } catch (error) { h error }]. *)
Definition try_catch {A} (m : M A) (h : JsError -> M A) : M A :=
  fun w =>
    match m w with
    | (Ok a, w1, out1) => (Ok a, w1, out1)
    | (Throw e, w1, out1) =>
        match h e w1 with
        | (r, w2, out2) => (r, w2, (out1 ++ out2)%list)
        end
    end.

Definition get {A} (f : World -> A) : M A := fun w => (Ok (f w), w, []).
Definition modify (f : World -> World) : M unit := fun w => (Ok tt, f w, []).
Definition emit (e : Effect) : M unit := fun w => (Ok tt, w, [e]).

(** A value that may have thrown while it was computed. *)
Definition lift {A} (r : JsError + A) : M A :=
  match r with
  | inl e => throw e
  | inr a => ret a
  end.

Declare Scope js_scope.
Delimit Scope js_scope with js.
Notation "x <- m ;; k" := (bind m (fun x => k))
  (at level 61, m at next level, right associativity) : js_scope.
Notation "m ;; k" := (bind m (fun _ => k))
  (at level 61, right associativity) : js_scope.
Local Open Scope js_scope.

(** [for (const x of l) body(x)]. *)
Fixpoint for_of {A} (l : list A) (body : A -> M unit) : M unit :=
  match l with
  | [] => ret tt
  | x :: rest => body x ;; for_of rest body
  end.

Definition world_of {A} (r : Res A * World * list Effect) : World := snd (fst r).
Definition calls_of {A} (r : Res A * World * list Effect) : list Effect := snd r.
Definition result_of {A} (r : Res A * World * list Effect) : Res A := fst (fst r).

(* ===================================================================== *)
(** ** whatsapp.ts *)
(* ===================================================================== *)

Module WhatsApp.

(** Message received from WhatsApp, forwarded to the Rust bot. *)
Record InboundMessage := {
  id : string;
  sender : string;
  pn : string;
  content : string;
  timestamp : Z;
  isGroup : bool
}.

(** [o?.f] *)
Definition chain {A B} (o : option A) (f : A -> option B) : option B :=
  match o with
  | Some a => f a
  | None => None
  end.

(** [extractMessageContent]: the text of a message object, [None] for
    [null].  A string is truthy when it is not empty. *)
Definition extractMessageContent (msg : Proto.WAMessage) : option string :=
  match Proto.message msg with
  | None => None
  | Some message =>
      match Proto.conversation message with
      | Some (String _ _ as conversation) => Some conversation
      | _ =>
      match chain (Proto.extendedTextMessage message) Proto.text with
      | Some (String _ _ as text) => Some text
      | _ =>
      match chain (Proto.imageMessage message) Proto.caption with
      | Some (String _ _ as caption) => Some ("[Image] " ++ caption)
      | _ =>
      match chain (Proto.videoMessage message) Proto.caption with
      | Some (String _ _ as caption) => Some ("[Video] " ++ caption)
      | _ =>
      match chain (Proto.documentMessage message) Proto.caption with
      | Some (String _ _ as caption) => Some ("[Document] " ++ caption)
      | _ =>
      match Proto.audioMessage message with
      | Some _ => Some "[Voice Message]"
      | None => None
      end end end end end end
  end.

(** [s === lit] *)
Definition equals (s : option string) (lit : string) : bool :=
  match s with
  | Some v => String.eqb v lit
  | None => false
  end.

(** A [boolean | null | undefined] used as a condition. *)
Definition truthy_bool (b : option bool) : bool :=
  match b with
  | Some true => true
  | _ => false
  end.

(** The body of the loop of the [messages.upsert] handler: [None] when the
    message is skipped ([continue]), else the record given to
    [onMessage]. *)
Definition normalize (msg : Proto.WAMessage) : option InboundMessage :=
  let key := Proto.key msg in
  if truthy_bool (Proto.fromMe key) then None
  else if equals (Proto.remoteJid key) "status@broadcast" then None
  else
    match extractMessageContent msg with
    | None | Some EmptyString => None
    | Some content =>
        let isGroup :=
          match Proto.remoteJid key with
          | Some jid => endsWith jid "@g.us" || false
          | None => false
          end in
        Some {| id := or_else (Proto.id key) "";
                sender := or_else (Proto.remoteJid key) "";
                pn := or_else (Proto.remoteJidAlt key) "";
                content := content;
                timestamp := Proto.messageTimestamp msg;
                isGroup := isGroup |}
    end.

(** [statusCode !== DisconnectReason.loggedOut] *)
Definition shouldReconnect (statusCode : option Z) : bool :=
  match statusCode with
  | Some code => negb (Z.eqb code Proto.loggedOut)
  | None => true
  end.

(** [(lastDisconnect?.error as Boom)?.output?.statusCode] *)
Definition statusCode_of (update : Proto.ConnectionState) : option Z :=
  chain (chain (chain (Proto.lastDisconnect update) Proto.error) Proto.output)
        Proto.statusCode.

Section Client.

(** The callbacks of [WhatsAppClientOptions]. *)
Variable onMessage : InboundMessage -> M unit.
Variable onQR : string -> M unit.
Variable onStatus : string -> M unit.

(** [connect]: every call makes a new upstream socket and stores it in
    [this.sock]; the handlers below are attached to each socket made.  The
    credential and version lookups it awaits first are taken to succeed. *)
Definition connect : M unit :=
  s <- get made ;;
  modify (set_made (S s)) ;;
  emit (MakeSocket s) ;;
  modify (set_sock (Some s)).

(** The callback given to [setTimeout]. *)
Definition reconnect : M unit :=
  modify (set_reconnecting false) ;;
  connect.

Definition setTimeout (delay : Z) : M unit :=
  modify (fun w => set_timers (timers w ++ [(now w + delay)%Z])%list w) ;;
  emit (SetTimeout delay).

(** The [connection.update] handler. *)
Definition on_connection_update (update : Proto.ConnectionState) : M unit :=
  match Proto.qr update with
  | Some (String _ _ as qr) => emit (QrPrint qr) ;; onQR qr
  | _ => ret tt
  end ;;
  if equals (Proto.connection update) "close" then
    let statusCode := statusCode_of update in
    onStatus "disconnected" ;;
    r <- get reconnecting ;;
    if shouldReconnect statusCode && negb r then
      modify (set_reconnecting true) ;;
      setTimeout 5000
    else ret tt
  else if equals (Proto.connection update) "open" then
    onStatus "connected"
  else ret tt.

(** The [messages.upsert] handler. *)
Definition on_messages_upsert (messages : list Proto.WAMessage)
    (type : string) : M unit :=
  if negb (String.eqb type "notify") then ret tt
  else
    for_of messages (fun msg =>
      match normalize msg with
      | None => ret tt
      | Some m => onMessage m
      end).

(** [sendMessage(to, text)]; [outcome] is how the upstream call settles
    when it is made: [None] when it resolves, [Some e] when it rejects
    with [e]. *)
Definition sendMessage (to text : Value) (outcome : option JsError) : M unit :=
  s <- get sock ;;
  match s with
  | None => throw (Error "Not connected")
  | Some s =>
      emit (SockSend s to text) ;;
      match outcome with
      | None => ret tt
      | Some e => throw e
      end
  end.

Definition disconnect : M unit :=
  s <- get sock ;;
  match s with
  | Some s => emit (SockEnd s) ;; modify (set_sock None)
  | None => ret tt
  end.

End Client.

End WhatsApp.

(* ===================================================================== *)
(** ** server.ts *)
(* ===================================================================== *)

Module Server.

Import WhatsApp.

(** [Set.prototype.add] and [delete] on a set kept in insertion order. *)
Definition set_add (c : nat) (l : list nat) : list nat :=
  if existsb (Nat.eqb c) l then l else (l ++ [c])%list.
Definition set_delete (c : nat) (l : list nat) : list nat :=
  filter (fun x => negb (Nat.eqb x c)) l.

Definition ws_send (c : nat) (data : string) : M unit := emit (WsSend c data).

(** [ws.close()]: an open connection starts closing. *)
Definition ws_close (c : nat) : M unit :=
  emit (WsClose c) ;;
  modify (fun w =>
    match readyState w c with
    | OPEN | CONNECTING => set_readyState c CLOSING w
    | _ => w
    end).

(** Broadcast a bridge event to all connected oxibot clients. *)
Definition broadcast (event : list (string * Value)) : M unit :=
  let data := JSON_stringify event in
  cs <- get clients ;;
  for_of cs (fun client =>
    r <- get (fun w => readyState w client) ;;
    if is_open r then ws_send client data else ret tt).

(** [{ type: 'message', ...msg }] *)
Definition message_event (msg : InboundMessage) : list (string * Value) :=
  [("type", VString "message");
   ("id", VString (id msg));
   ("sender", VString (sender msg));
   ("pn", VString (pn msg));
   ("content", VString (content msg));
   ("timestamp", number (timestamp msg));
   ("isGroup", VBool (isGroup msg))].

(** The callbacks [start] gives to the client. *)
Definition onMessage (msg : InboundMessage) : M unit :=
  broadcast (message_event msg).
Definition onQR (qr : string) : M unit :=
  broadcast [("type", VString "qr"); ("qr", VString qr)].
Definition onStatus (status : string) : M unit :=
  broadcast [("type", VString "status"); ("status", VString status)].

Definition error_frame (description : string) : string :=
  JSON_stringify [("type", VString "error"); ("error", VString description)].

Definition sent_frame (to : Value) : string :=
  JSON_stringify [("type", VString "sent"); ("to", to)].

(** Handle an outbound command from oxibot. *)
Definition handleCommand (cmd : Value) (ws : nat) (outcome : option JsError)
    : M unit :=
  type <- lift (getProp cmd "type") ;;
  if negb (strict_eq type "send") then
    t <- lift (ToString type) ;;
    ws_send ws (error_frame ("unknown command type: " ++ t))
  else
    a <- get wa ;;
    if negb a then ws_send ws (error_frame "WhatsApp not connected")
    else
      to <- lift (getProp cmd "to") ;;
      text <- lift (getProp cmd "text") ;;
      sendMessage to text outcome ;;
      ws_send ws (sent_frame to).

(** What [JSON.parse(data.toString())] did with a frame. *)
Inductive Parsed :=
| Unparsable (message : string)        (* threw SyntaxError(message) *)
| Json (cmd : Value).

(** The [message] handler of a controller connection. *)
Definition on_message (ws : nat) (data : Parsed) (outcome : option JsError)
    : M unit :=
  try_catch
    (match data with
     | Unparsable m => throw (SyntaxError m)
     | Json cmd => handleCommand cmd ws outcome
     end)
    (fun error => ws_send ws (error_frame (String_error error))).

(** The [connection] handler of the listener. *)
Definition on_connection (ws : nat) : M unit :=
  modify (fun w => set_clients (set_add ws (clients w)) w).

(** The [close] and the [error] handler of a controller connection. *)
Definition on_close (ws : nat) : M unit :=
  modify (fun w => set_clients (set_delete ws (clients w)) w).
Definition on_error (ws : nat) : M unit :=
  modify (fun w => set_clients (set_delete ws (clients w)) w).

(** Start the WebSocket server and connect to WhatsApp. *)
Definition start : M unit :=
  modify (set_wss true) ;;
  modify (set_sock None) ;;
  modify (set_reconnecting false) ;;
  modify (set_wa true) ;;
  connect.

(** Gracefully shut down the bridge. *)
Definition stop : M unit :=
  cs <- get clients ;;
  for_of cs ws_close ;;
  modify (set_clients []) ;;
  l <- get wss ;;
  (if l then emit WssClose ;; modify (set_wss false) else ret tt) ;;
  a <- get wa ;;
  if a then disconnect ;; modify (set_wa false) else ret tt.

End Server.

(* ===================================================================== *)
(** ** The running bridge: events, dispatch and the session state *)
(* ===================================================================== *)

(** The session states of the specification.  The source keeps no such
    field; the state is followed from what happens to the session. *)
Inductive SessionState := Disconnected | Connecting | AwaitingScan | Connected.

Inductive Upstream :=
| ConnectionUpdate (update : Proto.ConnectionState)
| MessagesUpsert (messages : list Proto.WAMessage) (type : string).

(** What can happen to the bridge once [start] has run. *)
Inductive Event :=
| WsConnection (ws : nat)              (* the listener accepts connection ws *)
| WsMessage (ws : nat) (data : Server.Parsed) (outcome : option JsError)
| WsClosed (ws : nat)                  (* 'close' on connection ws *)
| WsError (ws : nat)                   (* 'error' on connection ws *)
| WsReadyState (ws : nat) (r : ReadyState)  (* its transport changes state *)
| SockEvent (s : nat) (ev : Upstream)  (* upstream socket s emits ev *)
| Elapse (ms : nat)                    (* time passes; due timers fire *)
| CallConnect                          (* client.connect() *)
| CallDisconnect                       (* client.disconnect() *)
| CallSend (to text : Value) (outcome : option JsError)
| CallStop.                            (* server.stop() *)

Definition fire_timers : M unit :=
  due <- get (fun w => filter (fun d => Z.leb d (now w)) (timers w)) ;;
  modify (fun w => set_timers (filter (fun d => Z.ltb (now w) d) (timers w)) w) ;;
  for_of due (fun _ => WhatsApp.reconnect).

Definition handle (e : Event) : M unit :=
  match e with
  | WsConnection ws =>
      modify (set_readyState ws OPEN) ;; Server.on_connection ws
  | WsMessage ws data outcome => Server.on_message ws data outcome
  | WsClosed ws => Server.on_close ws
  | WsError ws => Server.on_error ws
  | WsReadyState ws r => modify (set_readyState ws r)
  | SockEvent s ev =>
      n <- get made ;;
      if Nat.ltb s n then
        match ev with
        | ConnectionUpdate update =>
            WhatsApp.on_connection_update Server.onQR Server.onStatus update
        | MessagesUpsert messages type =>
            WhatsApp.on_messages_upsert Server.onMessage messages type
        end
      else ret tt
  | Elapse ms =>
      modify (fun w => set_now (now w + Z.of_nat ms)%Z w) ;;
      fire_timers
  | CallConnect => WhatsApp.connect
  | CallDisconnect => WhatsApp.disconnect
  | CallSend to text outcome => WhatsApp.sendMessage to text outcome
  | CallStop => Server.stop
  end.

Definition is_MakeSocket (c : Effect) : bool :=
  match c with MakeSocket _ => true | _ => false end.

(** The transitions of the specification's state machine: [connect()]
    leaves [Disconnected]; an authentication challenge, a successful
    handshake and a closure are reported by the upstream socket;
    [disconnect()] ends the session. *)
Definition transition (st : SessionState) (w : World) (e : Event)
    (calls : list Effect) : SessionState :=
  match e with
  | CallConnect | Elapse _ =>
      match st with
      | Disconnected => if existsb is_MakeSocket calls then Connecting else st
      | _ => st
      end
  | SockEvent s (ConnectionUpdate update) =>
      if Nat.ltb s (made w) then
        let st1 :=
          match st with
          | Connecting => if truthy (Proto.qr update) then AwaitingScan else st
          | _ => st
          end in
        if WhatsApp.equals (Proto.connection update) "close" then Disconnected
        else if WhatsApp.equals (Proto.connection update) "open" then
          match st1 with
          | Connecting | AwaitingScan => Connected
          | _ => st1
          end
        else st1
      else st
  | CallDisconnect => Disconnected
  | CallStop => if wa w then Disconnected else st
  | _ => st
  end.

(** The bridge at one instant: its world, the session state, and every
    call made so far, oldest first. *)
Record Bridge := mkBridge {
  world : World;
  session : SessionState;
  log : list Effect
}.

Definition step (b : Bridge) (e : Event) : Bridge :=
  let r := handle e (world b) in
  mkBridge (world_of r)
           (transition (session b) (world b) e (calls_of r))
           (log b ++ calls_of r)%list.

Definition run (evs : list Event) (b : Bridge) : Bridge := fold_left step evs b.

(** [new BridgeServer(port, authDir)]. *)
Definition constructed : World :=
  mkWorld false false [] None false 0 [] 0 (fun _ => CLOSED).

(** The bridge once [server.start()] has run, as the entry point does. *)
Definition boot : Bridge :=
  let r := Server.start constructed in
  mkBridge (world_of r)
           (if existsb is_MakeSocket (calls_of r) then Connecting else Disconnected)
           (calls_of r).

Definition Reachable (b : Bridge) : Prop := exists evs, b = run evs boot.

(* ===================================================================== *)
(** ** Notions the statements speak of *)
(* ===================================================================== *)

Import WhatsApp.

(** The frames one broadcast writes: [data] to each open connection of
    [cs], in order. *)
Definition frames (data : string) (w : World) (cs : list nat) : list Effect :=
  map (fun c => WsSend c data) (filter (fun c => is_open (readyState w c)) cs).

Definition status_event (status : string) : list (string * Value) :=
  [("type", VString "status"); ("status", VString status)].
Definition qr_event (qr : string) : list (string * Value) :=
  [("type", VString "qr"); ("qr", VString qr)].

(** The calls a [connection.update] makes before it looks at
    [connection]. *)
Definition qr_calls (update : Proto.ConnectionState) (w : World) : list Effect :=
  match Proto.qr update with
  | Some (String a r) =>
      QrPrint (String a r)
      :: frames (JSON_stringify (qr_event (String a r))) w (clients w)
  | _ => []
  end.

Definition disconnected_frames (w : World) : list Effect :=
  frames (JSON_stringify (status_event "disconnected")) w (clients w).
Definition connected_frames (w : World) : list Effect :=
  frames (JSON_stringify (status_event "connected")) w (clients w).

(** A closure: [connection === 'close']. *)
Definition is_close (update : Proto.ConnectionState) : bool :=
  equals (Proto.connection update) "close".
Definition is_open_update (update : Proto.ConnectionState) : bool :=
  equals (Proto.connection update) "open".

(** A closure is terminal when its status code is [loggedOut]. *)
Definition logout (update : Proto.ConnectionState) : bool :=
  negb (shouldReconnect (statusCode_of update)).

Ltac unfold_sets :=
  unfold set_wss, set_wa, set_clients, set_sock, set_reconnecting, set_now,
    set_timers, set_made, set_readyState in *.

(** The world after [k] reconnect callbacks have run in a row. *)
Definition reconnected (k : nat) (w : World) : World :=
  match k with
  | O => w
  | S _ =>
      mkWorld (wss w) (wa w) (clients w) (Some (made w + k - 1)) false (now w)
              (timers w) (made w + k) (readyState w)
  end.

Definition due_timers (w : World) : list Z :=
  filter (fun d => Z.leb d (now w)) (timers w).
Definition later_timers (w : World) : list Z :=
  filter (fun d => Z.ltb (now w) d) (timers w).

(** The world after [close()] has been called on each connection of [cs]. *)
Definition closing (cs : list nat) (w : World) : World :=
  fold_left (fun w c =>
    match readyState w c with
    | OPEN | CONNECTING => set_readyState c CLOSING w
    | _ => w
    end) cs w.

(** The [reconnecting] flag is set exactly while one reconnect timer is
    pending, and that timer is due within the next 5 seconds. *)
Definition timer_inv (w : World) : Prop :=
  if reconnecting w
  then exists d, timers w = [d] /\ (now w < d <= now w + 5000)%Z
  else timers w = [].

Record Inv (b : Bridge) : Prop := {
  inv_timer : timer_inv (world b);
  inv_clients : NoDup (clients (world b));
  inv_sock : forall s, sock (world b) = Some s -> s < made (world b);
  inv_session : sock (world b) = None -> session b = Disconnected
}.

(** *** Sample inputs *)

Module Sample.

Definition key_of (jid : string) : Proto.MessageKey :=
  Proto.Build_MessageKey (Some "3EB0A1") (Some jid) None (Some false).

Definition envelope (k : Proto.MessageKey) (m : Proto.Message) : Proto.WAMessage :=
  Proto.Build_WAMessage k (Some m) 1700000000.

Definition chat (s : string) : Proto.Message :=
  Proto.Build_Message (Some s) None None None None None [].

Definition captioned_document (c : string) : Proto.Message :=
  Proto.Build_Message None None None None
    (Some (Proto.Build_MediaMessage (Some c))) None [].

Definition voice : Proto.Message :=
  Proto.Build_Message None None None None None
    (Some (Proto.Build_AudioMessage 3 true)) [].

(** A voice message that also carries plain text. *)
Definition voice_with_text : Proto.Message :=
  Proto.Build_Message (Some "hi") None None None None
    (Some (Proto.Build_AudioMessage 3 true)) [].

Definition own_key : Proto.MessageKey :=
  Proto.Build_MessageKey (Some "3EB0A2") (Some "491700@s.whatsapp.net") None
    (Some true).

(** A key with nothing but the sender flag. *)
Definition bare_key : Proto.MessageKey :=
  Proto.Build_MessageKey None None None None.

(** The key of a group message, every field present. *)
Definition group_key : Proto.MessageKey :=
  Proto.Build_MessageKey (Some "3EB0A9") (Some "12036@g.us")
    (Some "491700@s.whatsapp.net") (Some false).

Definition opened : Upstream :=
  ConnectionUpdate (Proto.Build_ConnectionState (Some "open") None None).

(** The payload of a closure whose error carries status [code]. *)
Definition closure (code : Z) : Proto.ConnectionState :=
  Proto.Build_ConnectionState (Some "close")
    (Some (Proto.Build_LastDisconnect
       (Some (Proto.Build_Boom (Some (Proto.Build_Output (Some code)))))))
    None.

Definition closed_with (code : Z) : Upstream := ConnectionUpdate (closure code).

Definition send_cmd : Value :=
  VObject [("type", VString "send"); ("to", VString "123@s.whatsapp.net");
           ("text", VString "hi")].

End Sample.

Definition plain (m : Proto.Message) : option string := Proto.conversation m.
Definition rich (m : Proto.Message) : option string :=
  chain (Proto.extendedTextMessage m) Proto.text.
Definition image_caption (m : Proto.Message) : option string :=
  chain (Proto.imageMessage m) Proto.caption.
Definition video_caption (m : Proto.Message) : option string :=
  chain (Proto.videoMessage m) Proto.caption.
Definition document_caption (m : Proto.Message) : option string :=
  chain (Proto.documentMessage m) Proto.caption.

(** Neither plain nor rich text. *)
Definition no_text (m : Proto.Message) : Prop :=
  truthy (plain m) = false /\ truthy (rich m) = false.

(** None of the three media captions. *)
Definition no_caption (m : Proto.Message) : Prop :=
  truthy (image_caption m) = false /\ truthy (video_caption m) = false /\
  truthy (document_caption m) = false.

(** The envelopes the handler skips before it extracts anything. *)
Definition skipped (msg : Proto.WAMessage) : bool :=
  truthy_bool (Proto.fromMe (Proto.key msg))
  || equals (Proto.remoteJid (Proto.key msg)) "status@broadcast".

(** The frames that [calls] write to connection [c], in order. *)
Definition sends_to (c : nat) (calls : list Effect) : list string :=
  flat_map (fun e =>
    match e with
    | WsSend c' d => if Nat.eqb c' c then [d] else []
    | _ => []
    end) calls.

(** A frame that is not a well-formed [send] command: it does not parse,
    or its [type] cannot be read, or its [type] is not the string "send". *)
Definition not_a_send (data : Server.Parsed) : Prop :=
  match data with
  | Server.Unparsable _ => True
  | Server.Json cmd =>
      match getProp cmd "type" with
      | inl _ => True
      | inr type => strict_eq type "send" = false
      end
  end.

Definition is_SetTimeout (c : Effect) : bool :=
  match c with SetTimeout _ => true | _ => false end.

(** How many calls of [calls] satisfy [p]. *)
Definition count (p : Effect -> bool) (calls : list Effect) : nat :=
  List.length (filter p calls).

(** A closure that is not a logout, on any socket. *)
Definition transient_closure (e : Event) : bool :=
  match e with
  | SockEvent _ (ConnectionUpdate update) => is_close update && negb (logout update)
  | _ => false
  end.

Definition is_elapse (e : Event) : bool :=
  match e with Elapse _ => true | _ => false end.

(** The time that passes during [evs]. *)
Fixpoint elapsed (evs : list Event) : nat :=
  match evs with
  | [] => 0
  | Elapse ms :: rest => ms + elapsed rest
  | _ :: rest => elapsed rest
  end.


(** *** The bridge as a transition system *)

(** The world an event leaves behind, in closed form. *)
Definition after (e : Event) (w : World) : World :=
  match e with
  | WsConnection ws =>
      let w1 := set_readyState ws OPEN w in
      set_clients (Server.set_add ws (clients w1)) w1
  | WsMessage _ _ _ => w
  | WsClosed ws | WsError ws => set_clients (Server.set_delete ws (clients w)) w
  | WsReadyState ws r => set_readyState ws r w
  | SockEvent s (ConnectionUpdate update) =>
      if Nat.ltb s (made w) && is_close update
         && (shouldReconnect (statusCode_of update) && negb (reconnecting w))
      then set_timers (timers w ++ [(now w + 5000)%Z])%list (set_reconnecting true w)
      else w
  | SockEvent _ (MessagesUpsert _ _) => w
  | Elapse ms =>
      let w1 := set_now (now w + Z.of_nat ms)%Z w in
      reconnected (List.length (due_timers w1)) (set_timers (later_timers w1) w1)
  | CallConnect => set_sock (Some (made w)) (set_made (S (made w)) w)
  | CallDisconnect =>
      match sock w with
      | Some _ => set_sock None w
      | None => w
      end
  | CallSend _ _ _ => w
  | CallStop =>
      let w1 := set_clients [] (closing (clients w) w) in
      let w2 := if wss w then set_wss false w1 else w1 in
      if wa w
      then set_wa false (match sock w with Some _ => set_sock None w2 | None => w2 end)
      else w2
  end.

(** A frame arriving on connection [c]. *)
Definition is_frame_from (c : nat) (e : Event) : bool :=
  match e with
  | WsMessage ws _ _ => Nat.eqb ws c
  | _ => false
  end.


Definition is_command (e : Event) : bool :=
  match e with
  | WsMessage _ _ _ | CallSend _ _ _ => true
  | _ => false
  end.

(** What an event may make the bridge call, given the world it meets. *)
Definition permitted (w : World) (e : Event) (c : Effect) : Prop :=
  match c with
  | WsSend ws _ =>
      (In ws (clients w) /\ readyState w ws = OPEN) \/ is_frame_from ws e = true
  | WsClose ws => e = CallStop /\ In ws (clients w)
  | WssClose => e = CallStop /\ wss w = true
  | MakeSocket s =>
      made w <= s /\ (e = CallConnect \/ (is_elapse e = true /\ timers w <> []))
  | SockSend s _ _ => sock w = Some s /\ is_command e = true
  | SockEnd s => sock w = Some s /\ (e = CallDisconnect \/ e = CallStop)
  | SetTimeout delay =>
      delay = 5000%Z /\ transient_closure e = true /\ reconnecting w = false
  | QrPrint _ => exists s update, e = SockEvent s (ConnectionUpdate update)
  end.

(** A call on upstream socket [s0] after it was made. *)
Definition uses_socket (s0 : nat) (c : Effect) : bool :=
  match c with
  | SockSend s _ _ | SockEnd s => Nat.eqb s s0
  | _ => false
  end.

Definition is_SockSend (c : Effect) : bool :=
  match c with SockSend _ _ _ => true | _ => false end.

(** The records a batch gives to [onMessage], in order. *)
Definition accepted (messages : list Proto.WAMessage) : list InboundMessage :=
  flat_map (fun msg =>
    match normalize msg with
    | Some m => [m]
    | None => []
    end) messages.

(** The frames one [connection.update] writes to an open connection. *)
Definition update_frames (update : Proto.ConnectionState) : list string :=
  ((if truthy (Proto.qr update)
    then [JSON_stringify (qr_event (or_else (Proto.qr update) ""))]
    else [])
   ++ (if is_close update then [JSON_stringify (status_event "disconnected")]
       else if is_open_update update then [JSON_stringify (status_event "connected")]
       else []))%list.

(** A parsed frame that is no object. *)
Definition is_primitive_or_array (v : Value) : bool :=
  match v with
  | VBool _ | VNumber _ | VString _ | VArray _ => true
  | _ => false
  end.

(** What [close()] makes of a [readyState]. *)
Definition closed_state (r : ReadyState) : ReadyState :=
  match r with
  | OPEN | CONNECTING => CLOSING
  | _ => r
  end.

(** The calls of [stop()]. *)
Definition stop_calls (w : World) : list Effect :=
  (map WsClose (clients w)
   ++ (if wss w then [WssClose] else [])
   ++ (if wa w then match sock w with Some s => [SockEnd s] | None => [] end
       else []))%list.

(** The two loops inside [ToString] of an array, by name. *)
Definition elem_string (x : Value) : JsError + string :=
  match x with
  | VUndefined | VNull => inr ""
  | _ => ToString x
  end.

Fixpoint join_strings (l : list Value) : JsError + string :=
  match l with
  | [] => inr ""
  | [x] => elem_string x
  | x :: rest =>
      match elem_string x with
      | inl e => inl e
      | inr s =>
          match join_strings rest with
          | inl e => inl e
          | inr r => inr (s ++ "," ++ r)
          end
      end
  end.

(* ===================================================================== *)
(** ** How the handlers run *)
(* ===================================================================== *)

Lemma for_of_send data cs w :
  for_of cs (fun client =>
    r <- get (fun w => readyState w client) ;;
    if is_open r then Server.ws_send client data else ret tt) w
  = (Ok tt, w, frames data w cs).
Proof.
  induction cs as [|c cs IH]; [reflexivity|].
  unfold frames in *. cbn [for_of filter]. unfold bind at 1.
  unfold bind at 1, get at 1.
  destruct (is_open (readyState w c)); cbn; rewrite IH; reflexivity.
Qed.

Lemma broadcast_run event w :
  Server.broadcast event w = (Ok tt, w, frames (JSON_stringify event) w (clients w)).
Proof.
  unfold Server.broadcast, bind at 1, get at 1. rewrite for_of_send. reflexivity.
Qed.

Lemma onStatus_run status w :
  Server.onStatus status w
  = (Ok tt, w, frames (JSON_stringify (status_event status)) w (clients w)).
Proof. apply broadcast_run. Qed.

Lemma onQR_run qr w :
  Server.onQR qr w = (Ok tt, w, frames (JSON_stringify (qr_event qr)) w (clients w)).
Proof. apply broadcast_run. Qed.

Lemma onMessage_run msg w :
  Server.onMessage msg w
  = (Ok tt, w, frames (JSON_stringify (Server.message_event msg)) w (clients w)).
Proof. apply broadcast_run. Qed.

Lemma close_not_open update : is_close update = true -> is_open_update update = false.
Proof.
  unfold is_close, is_open_update, equals.
  destruct (Proto.connection update) as [v|]; [|discriminate].
  intros H. apply String.eqb_eq in H. subst v. reflexivity.
Qed.

Lemma on_connection_update_run update w :
  on_connection_update Server.onQR Server.onStatus update w =
  if is_close update then
    if shouldReconnect (statusCode_of update) && negb (reconnecting w) then
      (Ok tt,
       set_timers (timers w ++ [(now w + 5000)%Z])%list (set_reconnecting true w),
       (qr_calls update w ++ disconnected_frames w ++ [SetTimeout 5000])%list)
    else (Ok tt, w, (qr_calls update w ++ disconnected_frames w)%list)
  else if is_open_update update then
    (Ok tt, w, (qr_calls update w ++ connected_frames w)%list)
  else (Ok tt, w, qr_calls update w).
Proof.
  unfold on_connection_update, is_close, is_open_update, qr_calls.
  destruct (equals (Proto.connection update) "close");
    [|destruct (equals (Proto.connection update) "open")];
    destruct (Proto.qr update) as [[|a r]|];
    unfold bind, emit, ret, get, modify, setTimeout;
    rewrite ?onQR_run, ?onStatus_run;
    try destruct (shouldReconnect (statusCode_of update) && negb (reconnecting w));
    cbn; rewrite ?app_nil_r; reflexivity.
Qed.

Lemma on_messages_upsert_run messages type w :
  on_messages_upsert Server.onMessage messages type w =
  (Ok tt, w,
   if String.eqb type "notify" then
     flat_map (fun msg =>
       match normalize msg with
       | Some m => frames (JSON_stringify (Server.message_event m)) w (clients w)
       | None => []
       end) messages
   else []).
Proof.
  unfold on_messages_upsert.
  destruct (String.eqb type "notify"); [|reflexivity]. cbn [negb].
  induction messages as [|msg rest IH]; [reflexivity|].
  cbn [for_of flat_map]. unfold bind at 1.
  destruct (normalize msg) as [m|].
  - rewrite onMessage_run, IH. reflexivity.
  - cbn. rewrite IH. reflexivity.
Qed.

Lemma connect_run w :
  connect w = (Ok tt, set_sock (Some (made w)) (set_made (S (made w)) w),
               [MakeSocket (made w)]).
Proof. reflexivity. Qed.

Lemma reconnect_run w :
  reconnect w =
  (Ok tt,
   set_sock (Some (made w)) (set_made (S (made w)) (set_reconnecting false w)),
   [MakeSocket (made w)]).
Proof. reflexivity. Qed.

Lemma sendMessage_run to text outcome w :
  sendMessage to text outcome w =
  match sock w with
  | None => (Throw (Error "Not connected"), w, [])
  | Some s =>
      (match outcome with None => Ok tt | Some e => Throw e end, w,
       [SockSend s to text])
  end.
Proof.
  unfold sendMessage, bind, get. cbn.
  destruct (sock w); [destruct outcome|]; reflexivity.
Qed.

Lemma disconnect_run w :
  disconnect w =
  match sock w with
  | Some s => (Ok tt, set_sock None w, [SockEnd s])
  | None => (Ok tt, w, [])
  end.
Proof. unfold disconnect, bind, get. cbn. destruct (sock w); reflexivity. Qed.

(** The controller's [message] handler never throws and changes no
    field. *)
Lemma on_message_quiet ws data outcome w :
  result_of (Server.on_message ws data outcome w) = Ok tt /\
  world_of (Server.on_message ws data outcome w) = w.
Proof.
  unfold Server.on_message, try_catch, Server.handleCommand, Server.ws_send.
  destruct data as [m|cmd]; [split; reflexivity|].
  unfold bind, lift, ret, throw, get, emit.
  destruct (getProp cmd "type") as [e|type]; [split; reflexivity|].
  destruct (strict_eq type "send"); cbn [negb].
  - destruct (wa w); cbn [negb]; [|split; reflexivity].
    destruct (getProp cmd "to") as [e|to]; [split; reflexivity|].
    destruct (getProp cmd "text") as [e|text]; [split; reflexivity|].
    rewrite sendMessage_run.
    destruct (sock w); [destruct outcome|]; split; reflexivity.
  - destruct (ToString type); split; reflexivity.
Qed.

Lemma for_of_reconnect (due : list Z) w :
  for_of due (fun _ => reconnect) w =
  (Ok tt, reconnected (List.length due) w,
   map MakeSocket (seq (made w) (List.length due))).
Proof.
  revert w. induction due as [|d rest IH]; intros w; [reflexivity|].
  cbn [for_of]. unfold bind. rewrite reconnect_run, IH.
  destruct w as [l a cs s r t ts n rs].
  destruct rest as [|d' rest']; unfold_sets; cbn.
  - do 2 f_equal. f_equal; try f_equal; lia.
  - do 2 f_equal; f_equal; try f_equal; lia.
Qed.

Lemma fire_timers_run w :
  fire_timers w =
  (Ok tt,
   reconnected (List.length (due_timers w)) (set_timers (later_timers w) w),
   map MakeSocket (seq (made w) (List.length (due_timers w)))).
Proof.
  unfold fire_timers, bind, get, modify. rewrite for_of_reconnect. reflexivity.
Qed.

Lemma for_of_ws_close cs w :
  for_of cs Server.ws_close w = (Ok tt, closing cs w, map WsClose cs).
Proof.
  revert w. induction cs as [|c cs IH]; intros w; [reflexivity|].
  cbn [for_of]. unfold bind at 1. unfold Server.ws_close at 1.
  unfold bind, emit, modify. rewrite IH. reflexivity.
Qed.

Lemma closing_fields cs w :
  wss (closing cs w) = wss w /\ wa (closing cs w) = wa w /\
  clients (closing cs w) = clients w /\ sock (closing cs w) = sock w /\
  reconnecting (closing cs w) = reconnecting w /\ now (closing cs w) = now w /\
  timers (closing cs w) = timers w /\ made (closing cs w) = made w.
Proof.
  revert w. induction cs as [|c cs IH]; intros w; [cbn; tauto|].
  cbn [closing fold_left]. fold (closing cs).
  destruct (readyState w c);
    first [exact (IH w) | exact (IH (set_readyState c CLOSING w))].
Qed.

Lemma stop_run w :
  Server.stop w =
  let w1 := set_clients [] (closing (clients w) w) in
  let w2 := if wss w then set_wss false w1 else w1 in
  (Ok tt,
   if wa w then set_wa false (match sock w with Some _ => set_sock None w2 | None => w2 end)
   else w2,
   (map WsClose (clients w) ++ (if wss w then [WssClose] else [])
    ++ (if wa w then match sock w with Some s => [SockEnd s] | None => [] end
        else []))%list).
Proof.
  unfold Server.stop. unfold bind at 1, get at 1. unfold bind at 1.
  rewrite for_of_ws_close.
  destruct (closing_fields (clients w) w) as (Hl & Ha & _ & Hs & _).
  unfold bind, modify, get, emit, ret.
  cbn [wss set_clients]. rewrite Hl.
  destruct (wss w); cbn [wa set_wss set_clients]; rewrite Ha;
    (destruct (wa w); [rewrite disconnect_run; cbn [sock set_wss set_clients];
                       rewrite Hs; destruct (sock w)|]);
    cbn; rewrite ?app_nil_r; reflexivity.
Qed.

Lemma elapse_run ms w :
  handle (Elapse ms) w =
  let w1 := set_now (now w + Z.of_nat ms)%Z w in
  (Ok tt,
   reconnected (List.length (due_timers w1)) (set_timers (later_timers w1) w1),
   map MakeSocket (seq (made w) (List.length (due_timers w1)))).
Proof.
  cbn [handle]. unfold bind, modify. rewrite fire_timers_run. reflexivity.
Qed.

Lemma sock_event_run s ev w :
  handle (SockEvent s ev) w =
  if Nat.ltb s (made w) then
    match ev with
    | ConnectionUpdate update =>
        on_connection_update Server.onQR Server.onStatus update w
    | MessagesUpsert messages type =>
        on_messages_upsert Server.onMessage messages type w
    end
  else (Ok tt, w, []).
Proof.
  cbn [handle]. unfold bind, get.
  destruct (Nat.ltb s (made w)); [|reflexivity].
  destruct ev as [update|messages type].
  - destruct (on_connection_update Server.onQR Server.onStatus update w)
      as [[r w'] out]. reflexivity.
  - destruct (on_messages_upsert Server.onMessage messages type w)
      as [[r w'] out]. reflexivity.
Qed.

(* ===================================================================== *)
(** ** Invariants of the running bridge *)
(* ===================================================================== *)

Lemma NoDup_set_add c l : NoDup l -> NoDup (Server.set_add c l).
Proof.
  intros H. unfold Server.set_add.
  destruct (existsb (Nat.eqb c) l) eqn:E; [assumption|].
  apply NoDup_app; [assumption|repeat constructor; intros []|].
  intros x Hx [Ex|[]]. subst x.
  assert (existsb (Nat.eqb c) l = true); [|congruence].
  apply existsb_exists. exists c. split; [assumption|apply Nat.eqb_refl].
Qed.

Lemma NoDup_set_delete c l : NoDup l -> NoDup (Server.set_delete c l).
Proof. apply NoDup_filter. Qed.

Lemma boot_inv : Inv boot.
Proof.
  split; cbn.
  - reflexivity.
  - constructor.
  - intros s [= <-]. lia.
  - discriminate.
Qed.

Lemma step_inv b e : Inv b -> Inv (step b e).
Proof.
  intros [Ht Hc Hs Hd]. destruct b as [w st lg]. cbn in Ht, Hc, Hs, Hd.
  unfold step. cbn [world session log].
  destruct e as [ws|ws data outcome|ws|ws|ws r|s ev|ms| | |to text outcome| ].
  - (* WsConnection *)
    split; cbn; auto using NoDup_set_add.
  - (* WsMessage *)
    cbn [handle transition].
    destruct (on_message_quiet ws data outcome w) as [_ Hw]. rewrite Hw.
    split; assumption.
  - split; cbn; auto using NoDup_set_delete.
  - split; cbn; auto using NoDup_set_delete.
  - split; cbn; auto.
  - (* SockEvent *)
    rewrite sock_event_run. cbn [transition].
    destruct (Nat.ltb s (made w)) eqn:Elt;
      [|split; cbn; try assumption; destruct ev; assumption].
    destruct ev as [update|messages type].
    + rewrite on_connection_update_run.
      assert (Hst : sock w = None ->
                    (let st1 := match st with
                                | Connecting =>
                                    if truthy (Proto.qr update) then AwaitingScan else st
                                | _ => st
                                end in
                     if equals (Proto.connection update) "close" then Disconnected
                     else if equals (Proto.connection update) "open"
                          then match st1 with
                               | Connecting | AwaitingScan => Connected
                               | _ => st1
                               end
                          else st1) = Disconnected).
      { intros H. rewrite (Hd H). cbn.
        destruct (equals (Proto.connection update) "close"); [reflexivity|].
        destruct (equals (Proto.connection update) "open"); reflexivity. }
      destruct (is_close update);
        [destruct (shouldReconnect (statusCode_of update) && negb (reconnecting w)) eqn:E
        |destruct (is_open_update update)];
        split; cbn; try assumption.
      apply andb_prop in E. destruct E as [_ E].
      unfold timer_inv in *. cbn.
      destruct (reconnecting w); [discriminate|]. rewrite Ht.
      exists (now w + 5000)%Z. split; [reflexivity|lia].
    + rewrite on_messages_upsert_run. split; cbn; assumption.
  - (* Elapse *)
    rewrite elapse_run. cbn zeta.
    unfold due_timers, later_timers. cbn [now timers set_now made transition].
    unfold timer_inv in Ht.
    destruct (reconnecting w) eqn:Er.
    + destruct Ht as (d & Hts & Hd1). rewrite Hts. cbn [filter].
      destruct (Z.leb d (now w + Z.of_nat ms)) eqn:Ed.
      * assert (El : Z.ltb (now w + Z.of_nat ms) d = false) by lia.
        rewrite El. split; cbn; try assumption.
        -- reflexivity.
        -- intros s [= <-]. lia.
        -- discriminate.
      * assert (El : Z.ltb (now w + Z.of_nat ms) d = true) by lia.
        rewrite El. split; cbn; try assumption.
        -- unfold timer_inv. cbn. rewrite Er. exists d. split; [reflexivity|lia].
        -- intros H. rewrite (Hd H). reflexivity.
    + rewrite Ht. split; cbn; try assumption.
      * unfold timer_inv. cbn. rewrite Er. reflexivity.
      * intros H. rewrite (Hd H). reflexivity.
  - (* CallConnect *)
    split; cbn; try assumption.
    + intros s [= <-]. lia.
    + discriminate.
  - (* CallDisconnect *)
    cbn [handle transition]. rewrite disconnect_run.
    destruct (sock w) eqn:E; split; cbn; intros; try assumption;
      try reflexivity; congruence.
  - (* CallSend *)
    cbn [handle transition]. rewrite sendMessage_run.
    destruct (sock w) eqn:E; split; cbn; try assumption; rewrite E; assumption.
  - (* CallStop *)
    cbn [handle transition]. rewrite stop_run.
    destruct (closing_fields (clients w) w) as (_ & _ & _ & Es & Er & En & Et & Em).
    assert (Hti : forall w', reconnecting w' = reconnecting w -> now w' = now w ->
                             timers w' = timers w -> timer_inv w').
    { intros w' H1 H2 H3. unfold timer_inv in *. rewrite H1, H2, H3. exact Ht. }
    destruct (wss w), (wa w), (sock w) eqn:E; split; cbn;
      try (apply Hti; cbn; assumption); try constructor; try reflexivity;
      try discriminate; rewrite ?Es, ?Em, ?E; try assumption.
Qed.

Lemma run_inv evs : forall b, Inv b -> Inv (run evs b).
Proof.
  induction evs as [|e evs IH]; intros b H; [assumption|].
  cbn. apply IH, step_inv, H.
Qed.

Lemma reachable_inv b : Reachable b -> Inv b.
Proof. intros [evs ->]. apply run_inv, boot_inv. Qed.

(* ===================================================================== *)
(** ** The message normalizer *)
(* ===================================================================== *)

Lemma extract_cases msg m :
  Proto.message msg = Some m ->
  extractMessageContent msg =
  if truthy (plain m) then plain m
  else if truthy (rich m) then rich m
  else if truthy (image_caption m)
       then Some ("[Image] " ++ or_else (image_caption m) "")
  else if truthy (video_caption m)
       then Some ("[Video] " ++ or_else (video_caption m) "")
  else if truthy (document_caption m)
       then Some ("[Document] " ++ or_else (document_caption m) "")
  else match Proto.audioMessage m with
       | Some _ => Some "[Voice Message]"
       | None => None
       end.
Proof.
  intros H. unfold extractMessageContent. rewrite H.
  unfold plain, rich, image_caption, video_caption, document_caption.
  destruct (Proto.conversation m) as [[|? ?]|];
    destruct (chain (Proto.extendedTextMessage m) Proto.text) as [[|? ?]|];
    destruct (chain (Proto.imageMessage m) Proto.caption) as [[|? ?]|];
    destruct (chain (Proto.videoMessage m) Proto.caption) as [[|? ?]|];
    destruct (chain (Proto.documentMessage m) Proto.caption) as [[|? ?]|];
    reflexivity.
Qed.

(** The handler's output for one message of a [notify] batch. *)
Lemma upsert_one msg w :
  on_messages_upsert Server.onMessage [msg] "notify" w =
  (Ok tt, w,
   match normalize msg with
   | Some m => frames (JSON_stringify (Server.message_event m)) w (clients w)
   | None => []
   end).
Proof.
  rewrite on_messages_upsert_run. cbn [String.eqb flat_map].
  replace (("notify" =? "notify")%string) with true by reflexivity.
  rewrite app_nil_r. reflexivity.
Qed.

(** C4. The normalizer extracts content by first match: plain text, then
    the rich text body, then an image, a video or a document caption behind
    the tag "[Image] ", "[Video] " or "[Document] ", then the placeholder
    "[Voice Message]" for an audio message; an envelope matching none of
    these, or carrying no message at all, gives no content, and the handler
    then forwards nothing and throws nothing. *)
Theorem extraction_precedence (msg : Proto.WAMessage) :
  (forall m, Proto.message msg = Some m ->
     (truthy (plain m) = true -> extractMessageContent msg = plain m) /\
     (truthy (plain m) = false -> truthy (rich m) = true ->
        extractMessageContent msg = rich m) /\
     (no_text m -> forall c, image_caption m = Some c -> truthy (Some c) = true ->
        extractMessageContent msg = Some ("[Image] " ++ c)) /\
     (no_text m -> truthy (image_caption m) = false ->
        forall c, video_caption m = Some c -> truthy (Some c) = true ->
        extractMessageContent msg = Some ("[Video] " ++ c)) /\
     (no_text m -> truthy (image_caption m) = false ->
        truthy (video_caption m) = false ->
        forall c, document_caption m = Some c -> truthy (Some c) = true ->
        extractMessageContent msg = Some ("[Document] " ++ c)) /\
     (no_text m -> no_caption m -> Proto.audioMessage m <> None ->
        extractMessageContent msg = Some "[Voice Message]") /\
     (no_text m -> no_caption m -> Proto.audioMessage m = None ->
        extractMessageContent msg = None)) /\
  (Proto.message msg = None -> extractMessageContent msg = None) /\
  (extractMessageContent msg = None ->
     normalize msg = None /\
     forall w, on_messages_upsert Server.onMessage [msg] "notify" w = (Ok tt, w, [])).
Proof.
  split; [|split].
  - intros m Hm. rewrite (extract_cases msg m Hm). unfold no_text, no_caption.
    repeat split.
    + intros ->. reflexivity.
    + intros -> ->. reflexivity.
    + intros [-> ->] c Hc Ht. rewrite Hc, Ht. destruct c; [discriminate|reflexivity].
    + intros [-> ->] -> c Hc Ht. rewrite Hc, Ht.
      destruct c; [discriminate|reflexivity].
    + intros [-> ->] -> -> c Hc Ht. rewrite Hc, Ht.
      destruct c; [discriminate|reflexivity].
    + intros [-> ->] (-> & -> & ->) Ha.
      destruct (Proto.audioMessage m); [reflexivity|congruence].
    + intros [-> ->] (-> & -> & ->) ->. reflexivity.
  - intros H. unfold extractMessageContent. rewrite H. reflexivity.
  - intros H.
    assert (Hn : normalize msg = None).
    { unfold normalize. rewrite H.
      destruct (truthy_bool _); [reflexivity|]. destruct (equals _ _); reflexivity. }
    split; [exact Hn|]. intros w. rewrite upsert_one, Hn. reflexivity.
Qed.

Lemma extraction_precedence_witness :
  extractMessageContent
    (Sample.envelope (Sample.key_of "123@s.whatsapp.net")
       (Sample.captioned_document "report.pdf"))
  = Some "[Document] report.pdf".
Proof.
  pose proof (extraction_precedence
    (Sample.envelope (Sample.key_of "123@s.whatsapp.net")
       (Sample.captioned_document "report.pdf"))) as [H _].
  specialize (H (Sample.captioned_document "report.pdf") eq_refl).
  destruct H as (_ & _ & _ & _ & H & _).
  apply (H (conj eq_refl eq_refl) eq_refl eq_refl "report.pdf" eq_refl eq_refl).
Defined.

Lemma skipped_normalize msg : skipped msg = true -> normalize msg = None.
Proof.
  unfold skipped, normalize. intros H.
  destruct (truthy_bool _); [reflexivity|].
  cbn in H. rewrite H. reflexivity.
Qed.

(** C5. An envelope sent by the session's own account, or addressed to the
    status broadcast address, gives no output whatever it holds, and a batch
    is handled as if these envelopes were not in it. *)
Theorem own_and_broadcast_filtered (msg : Proto.WAMessage) :
  Proto.fromMe (Proto.key msg) = Some true \/
  Proto.remoteJid (Proto.key msg) = Some "status@broadcast" ->
  normalize msg = None /\
  (forall type w,
     on_messages_upsert Server.onMessage [msg] type w = (Ok tt, w, [])) /\
  (forall before after type w,
     on_messages_upsert Server.onMessage (before ++ msg :: after)%list type w =
     on_messages_upsert Server.onMessage (before ++ after)%list type w).
Proof.
  intros H.
  assert (Hs : skipped msg = true).
  { unfold skipped. destruct H as [-> | ->]; [reflexivity|].
    apply orb_true_r. }
  pose proof (skipped_normalize msg Hs) as Hn.
  split; [exact Hn|]. split.
  - intros type w. rewrite on_messages_upsert_run. cbn [flat_map]. rewrite Hn.
    destruct (String.eqb type "notify"); reflexivity.
  - intros before after type w. rewrite !on_messages_upsert_run.
    rewrite !flat_map_app. cbn [flat_map]. rewrite Hn. reflexivity.
Qed.

Lemma own_and_broadcast_filtered_witness :
  extractMessageContent (Sample.envelope Sample.own_key (Sample.chat "hello"))
    = Some "hello" /\
  normalize (Sample.envelope Sample.own_key (Sample.chat "hello")) = None.
Proof.
  split; [reflexivity|].
  apply (own_and_broadcast_filtered
           (Sample.envelope Sample.own_key (Sample.chat "hello"))).
  left. reflexivity.
Defined.

(** C9, as stated, fails: an envelope with an audio field, no caption and
    plain text yields the text, not the placeholder. *)
Lemma voice_with_text_is_text :
  let m := Sample.voice_with_text in
  Proto.audioMessage m <> None /\ no_caption m /\
  extractMessageContent (Sample.envelope (Sample.key_of "123@s.whatsapp.net") m)
    = Some "hi" /\
  option_map content
    (normalize (Sample.envelope (Sample.key_of "123@s.whatsapp.net") m))
    = Some "hi".
Proof.
  cbv zeta. split; [discriminate|]. split; [repeat split|]. split; reflexivity.
Qed.

(** C9, amended. An envelope with an audio field and neither plain text,
    rich text nor a media caption has the content "[Voice Message]",
    whatever else it holds; unless it is skipped, that is the content
    forwarded. *)
Theorem voice_placeholder (msg : Proto.WAMessage) (m : Proto.Message) :
  Proto.message msg = Some m ->
  Proto.audioMessage m <> None -> no_text m -> no_caption m ->
  extractMessageContent msg = Some "[Voice Message]" /\
  (skipped msg = false ->
   option_map content (normalize msg) = Some "[Voice Message]").
Proof.
  intros Hm Ha [Hp Hr] (Hi & Hv & Hd).
  assert (He : extractMessageContent msg = Some "[Voice Message]").
  { rewrite (extract_cases msg m Hm), Hp, Hr, Hi, Hv, Hd.
    destruct (Proto.audioMessage m); [reflexivity|congruence]. }
  split; [exact He|].
  unfold skipped, normalize. intros Hs. apply orb_false_elim in Hs.
  destruct Hs as [-> ->]. rewrite He. reflexivity.
Qed.

Lemma voice_placeholder_witness :
  option_map content
    (normalize (Sample.envelope (Sample.key_of "123@s.whatsapp.net") Sample.voice))
  = Some "[Voice Message]".
Proof.
  apply (voice_placeholder
           (Sample.envelope (Sample.key_of "123@s.whatsapp.net") Sample.voice)
           Sample.voice eq_refl).
  - discriminate.
  - split; reflexivity.
  - repeat split.
  - reflexivity.
Defined.

(** *** [endsWith] *)

Lemma length_append (a b : string) :
  String.length (a ++ b) = String.length a + String.length b.
Proof. induction a as [|c a IH]; cbn; [reflexivity|]. rewrite IH. reflexivity. Qed.

Lemma substring_all (s : string) : substring 0 (String.length s) s = s.
Proof. induction s as [|c s IH]; cbn; [reflexivity|]. rewrite IH. reflexivity. Qed.

Lemma substring_append (p s : string) (m : nat) :
  substring (String.length p) m (p ++ s) = substring 0 m s.
Proof. induction p as [|c p IH]; cbn; [reflexivity|]. exact IH. Qed.

Lemma substring_split (s : string) : forall k,
  k <= String.length s ->
  s = substring 0 k s ++ substring k (String.length s - k) s.
Proof.
  induction s as [|c s IH]; intros k Hk.
  - cbn in Hk. assert (k = 0) by lia. subst k. reflexivity.
  - destruct k as [|k].
    + cbn [substring String.length Nat.sub append]. rewrite substring_all. reflexivity.
    + cbn [substring String.length Nat.sub append]. cbn in Hk.
      rewrite <- IH by lia. reflexivity.
Qed.

Lemma endsWith_spec (s suffix : string) :
  endsWith s suffix = true <-> exists p, s = p ++ suffix.
Proof.
  unfold endsWith. split.
  - destruct (Nat.leb (String.length suffix) (String.length s)) eqn:E;
      [|discriminate].
    apply Nat.leb_le in E. intros H. apply String.eqb_eq in H.
    exists (substring 0 (String.length s - String.length suffix) s).
    rewrite <- H at 2.
    rewrite (substring_split s (String.length s - String.length suffix)) at 1
      by lia.
    do 2 f_equal. lia.
  - intros [p ->]. rewrite length_append.
    replace (Nat.leb _ _) with true by (symmetry; apply Nat.leb_le; lia).
    replace (String.length p + String.length suffix - String.length suffix)
      with (String.length p) by lia.
    rewrite substring_append, substring_all. apply String.eqb_refl.
Qed.

Lemma or_else_empty (o : option string) :
  or_else o "" = match o with Some s => s | None => "" end.
Proof. destruct o as [[|a r]|]; reflexivity. Qed.

Lemma extract_not_empty msg : extractMessageContent msg <> Some "".
Proof.
  unfold extractMessageContent.
  destruct (Proto.message msg) as [m|]; [|discriminate].
  destruct (Proto.conversation m) as [[|? ?]|];
    destruct (chain (Proto.extendedTextMessage m) Proto.text) as [[|? ?]|];
    destruct (chain (Proto.imageMessage m) Proto.caption) as [[|? ?]|];
    destruct (chain (Proto.videoMessage m) Proto.caption) as [[|? ?]|];
    destruct (chain (Proto.documentMessage m) Proto.caption) as [[|? ?]|];
    destruct (Proto.audioMessage m); discriminate.
Qed.

(** C10. An envelope that passes the filters and yields content is
    forwarded, and the record forwarded has a string in every string field:
    a missing message id, conversation address or alternate sender address
    becomes the empty string, a present one is kept, also in the frame
    written; the content is the extracted text and the timestamp the
    envelope's; [isGroup] is false when the conversation address is missing
    or does not end in "@g.us", and true when it does. *)
Theorem inbound_message_total (msg : Proto.WAMessage) (c : string) :
  skipped msg = false -> extractMessageContent msg = Some c ->
  let key := Proto.key msg in
  exists im,
    normalize msg = Some im /\
    (forall w,
       on_messages_upsert Server.onMessage [msg] "notify" w
       = (Ok tt, w, frames (JSON_stringify (Server.message_event im)) w (clients w))) /\
    content im = c /\
    timestamp im = Proto.messageTimestamp msg /\
    (Proto.id key = None -> id im = "") /\
    (forall s, Proto.id key = Some s -> id im = s) /\
    (Proto.remoteJid key = None -> sender im = "" /\ isGroup im = false) /\
    (forall j, Proto.remoteJid key = Some j ->
       sender im = j /\ (isGroup im = true <-> exists p, j = p ++ "@g.us")) /\
    (Proto.remoteJidAlt key = None -> pn im = "") /\
    (forall s, Proto.remoteJidAlt key = Some s -> pn im = s) /\
    lookup "id" (Server.message_event im) = Some (VString (id im)) /\
    lookup "sender" (Server.message_event im) = Some (VString (sender im)) /\
    lookup "pn" (Server.message_event im) = Some (VString (pn im)) /\
    lookup "content" (Server.message_event im) = Some (VString (content im)).
Proof.
  intros Hs He key. unfold skipped in Hs. apply orb_false_elim in Hs.
  destruct Hs as [Hf Hb].
  pose proof (extract_not_empty msg) as Hne.
  destruct c as [|a r]; [congruence|].
  assert (Hn : normalize msg =
               Some {| id := or_else (Proto.id key) "";
                       sender := or_else (Proto.remoteJid key) "";
                       pn := or_else (Proto.remoteJidAlt key) "";
                       content := String a r;
                       timestamp := Proto.messageTimestamp msg;
                       isGroup := match Proto.remoteJid key with
                                  | Some jid => endsWith jid "@g.us" || false
                                  | None => false
                                  end |}).
  { unfold normalize. rewrite Hf, Hb, He. reflexivity. }
  eexists. split; [exact Hn|].
  split; [intros w; rewrite upsert_one, Hn; reflexivity|].
  cbn. rewrite !or_else_empty.
  split; [reflexivity|]. split; [reflexivity|].
  split; [intros ->; reflexivity|].
  split; [intros s ->; reflexivity|].
  split; [intros ->; split; reflexivity|].
  split.
  { intros j ->. split; [reflexivity|]. rewrite orb_false_r. apply endsWith_spec. }
  split; [intros ->; reflexivity|].
  split; [intros s ->; reflexivity|].
  repeat split.
Qed.

(** A group message with every key field present, and a message whose key
    has none. *)
Lemma inbound_message_total_witness :
  normalize (Sample.envelope Sample.group_key (Sample.chat "hello"))
  = Some (Build_InboundMessage "3EB0A9" "12036@g.us" "491700@s.whatsapp.net"
            "hello" 1700000000 true) /\
  normalize (Sample.envelope Sample.bare_key (Sample.chat "hello"))
  = Some (Build_InboundMessage "" "" "" "hello" 1700000000 false).
Proof.
  split.
  - destruct (inbound_message_total
                (Sample.envelope Sample.group_key (Sample.chat "hello")) "hello"
                eq_refl eq_refl)
      as (im & Hn & _ & Hc & Ht & _ & Hi & _ & Hs & _ & Hp & _).
    rewrite Hn. destruct im as [i s p c t g]. cbn in Hc, Ht.
    pose proof (Hi _ eq_refl) as Hi'. destruct (Hs _ eq_refl) as [Hs' Hg].
    pose proof (Hp _ eq_refl) as Hp'. cbn in Hi', Hs', Hp', Hg.
    assert (Hg' : g = true) by (apply Hg; exists "12036"; reflexivity).
    subst. reflexivity.
  - destruct (inbound_message_total
                (Sample.envelope Sample.bare_key (Sample.chat "hello")) "hello"
                eq_refl eq_refl)
      as (im & Hn & _ & Hc & Ht & Hi & _ & Hs & _ & Hp & _).
    rewrite Hn. destruct im as [i s p c t g]. cbn in Hc, Ht.
    pose proof (Hi eq_refl) as Hi'. destruct (Hs eq_refl) as [Hs' Hg].
    pose proof (Hp eq_refl) as Hp'. cbn in Hi', Hs', Hp', Hg.
    subst. reflexivity.
Defined.

(* ===================================================================== *)
(** ** The relay server *)
(* ===================================================================== *)

Lemma sends_to_cons c x d l :
  sends_to c (WsSend x d :: l) =
  ((if Nat.eqb x c then [d] else []) ++ sends_to c l)%list.
Proof. reflexivity. Qed.

Lemma frames_cons data w x cs :
  frames data w (x :: cs) =
  if is_open (readyState w x) then WsSend x data :: frames data w cs
  else frames data w cs.
Proof. unfold frames. cbn [filter]. destruct (is_open _); reflexivity. Qed.

Lemma sends_to_frames_out data w c cs :
  ~ In c cs -> sends_to c (frames data w cs) = [].
Proof.
  induction cs as [|x cs IH]; intros H; [reflexivity|].
  assert (Hx : Nat.eqb x c = false).
  { apply Nat.eqb_neq. intros ->. apply H. left. reflexivity. }
  assert (Hc : ~ In c cs) by (intros Hin; apply H; right; exact Hin).
  rewrite frames_cons.
  destruct (is_open (readyState w x)); rewrite ?sends_to_cons, ?Hx; apply IH, Hc.
Qed.

Lemma sends_to_frames data w c cs :
  NoDup cs -> In c cs ->
  sends_to c (frames data w cs) = if is_open (readyState w c) then [data] else [].
Proof.
  induction cs as [|x cs IH]; intros Hnd Hin; [destruct Hin|].
  inversion Hnd as [|? ? Hx Hnd']; subst.
  rewrite frames_cons. destruct Hin as [->|Hin].
  - pose proof (sends_to_frames_out data w c cs Hx) as Hout.
    destruct (is_open (readyState w c));
      rewrite ?sends_to_cons, ?Nat.eqb_refl, Hout; reflexivity.
  - assert (Hxc : Nat.eqb x c = false).
    { apply Nat.eqb_neq. intros ->. contradiction. }
    destruct (is_open (readyState w x)); rewrite ?sends_to_cons, ?Hxc;
      apply IH; assumption.
Qed.

Lemma in_frames data w cs e :
  In e (frames data w cs) ->
  exists c, e = WsSend c data /\ In c cs /\ readyState w c = OPEN.
Proof.
  unfold frames. intros H. apply in_map_iff in H. destruct H as (c & <- & Hc).
  apply filter_In in Hc. destruct Hc as [Hin Ho].
  exists c. repeat split; [assumption|].
  destruct (readyState w c); try discriminate. reflexivity.
Qed.

(** C6. A broadcast serializes the event once and writes that one frame to
    every registered connection whose transport is open, once each and in
    registration order; a connection that is not open gets nothing, nothing
    is thrown, and the set of connections is left as it was. *)
Theorem broadcast_fanout (b : Bridge) (event : list (string * Value)) :
  Reachable b ->
  let w := world b in
  let data := JSON_stringify event in
  let r := Server.broadcast event w in
  result_of r = Ok tt /\
  world_of r = w /\
  calls_of r =
    map (fun c => WsSend c data)
        (filter (fun c => is_open (readyState w c)) (clients w)) /\
  (forall c, In c (clients w) -> readyState w c = OPEN ->
     sends_to c (calls_of r) = [data]) /\
  (forall c, In c (clients w) -> readyState w c <> OPEN ->
     sends_to c (calls_of r) = [] /\ In c (clients (world_of r))) /\
  (forall e, In e (calls_of r) ->
     exists c, e = WsSend c data /\ In c (clients w) /\ readyState w c = OPEN).
Proof.
  intros Hr w data r. subst r. rewrite broadcast_run. cbn [result_of world_of calls_of fst snd].
  pose proof (inv_clients b (reachable_inv b Hr)) as Hnd. fold w in Hnd.
  split; [reflexivity|]. split; [reflexivity|]. split; [reflexivity|].
  split; [|split].
  - intros c Hin Ho. fold data. rewrite (sends_to_frames data w c _ Hnd Hin), Ho.
    reflexivity.
  - intros c Hin Ho. split; [|exact Hin]. fold data.
    rewrite (sends_to_frames data w c _ Hnd Hin).
    destruct (readyState w c); try reflexivity. congruence.
  - intros e He. apply in_frames. exact He.
Qed.

(** Three registered connections, the second already closing, and a
    message event. *)
Lemma broadcast_fanout_witness :
  let b := run [WsConnection 1; WsConnection 2; WsConnection 3;
                WsReadyState 2 CLOSING] boot in
  let data :=
    JSON_stringify
      (Server.message_event (Build_InboundMessage "3EB0A1" "123@s.whatsapp.net" ""
                               "hello" 1700000000 false)) in
  calls_of
    (Server.broadcast
       (Server.message_event (Build_InboundMessage "3EB0A1" "123@s.whatsapp.net" ""
                                "hello" 1700000000 false)) (world b))
  = [WsSend 1 data; WsSend 3 data].
Proof.
  intros b data.
  assert (Hr : Reachable b) by (eexists; reflexivity).
  destruct (broadcast_fanout b
    (Server.message_event (Build_InboundMessage "3EB0A1" "123@s.whatsapp.net" ""
                             "hello" 1700000000 false)) Hr)
    as (_ & _ & H & _).
  rewrite H. reflexivity.
Defined.

(** C7, as stated, fails: the reply to a frame that does not parse carries
    the parser's error, which is no "unknown command type" description. *)
Lemma unparsable_frame_reply :
  calls_of (Server.on_message 1 (Server.Unparsable "Unexpected end of JSON input")
              None (world boot))
  = [WsSend 1 (Server.error_frame "SyntaxError: Unexpected end of JSON input")] /\
  forall t,
    Server.error_frame "SyntaxError: Unexpected end of JSON input"
    <> Server.error_frame ("unknown command type: " ++ t).
Proof.
  split; [reflexivity|].
  intros t H. cbv in H. discriminate H.
Qed.

Lemma ToString_array xs : ToString (VArray xs) = join_strings xs.
Proof. reflexivity. Qed.

Lemma join_strings_throws xs :
  Forall (fun x => forall e, ToString x = inl e ->
                   e = TypeError "Cannot convert object to primitive value") xs ->
  forall e, join_strings xs = inl e ->
            e = TypeError "Cannot convert object to primitive value".
Proof.
  induction xs as [|x rest IH]; intros HF e H; [discriminate H|].
  inversion HF as [|? ? Hx HF']; subst.
  assert (Hex : forall e', elem_string x = inl e' ->
                           e' = TypeError "Cannot convert object to primitive value").
  { intros e' He'. destruct x; try discriminate He'; apply (Hx _ He'). }
  destruct rest as [|y rest'].
  - apply Hex. exact H.
  - change (join_strings (x :: y :: rest'))
      with (match elem_string x with
            | inl e => inl e
            | inr s =>
                match join_strings (y :: rest') with
                | inl e => inl e
                | inr r => inr (s ++ "," ++ r)
                end
            end) in H.
    destruct (elem_string x) as [e1|s1] eqn:E1.
    + injection H as <-. apply Hex. reflexivity.
    + destruct (join_strings (y :: rest')) as [e2|s2] eqn:E2; [|discriminate H].
      injection H as <-. apply (IH HF' _ eq_refl).
Qed.

(** The only error [ToString] throws. *)
Lemma ToString_throws : forall v e,
  ToString v = inl e -> e = TypeError "Cannot convert object to primitive value".
Proof.
  fix IH 1. intros v e H. destruct v as [| |b|r|s|xs|props]; try discriminate H.
  - destruct b; discriminate H.
  - rewrite ToString_array in H. apply (join_strings_throws xs); [|exact H].
    clear H. induction xs as [|x rest IHxs]; constructor.
    + intros e' He'. apply (IH x e' He').
    + exact IHxs.
  - cbn in H. destruct (lookup "toString" props); [|discriminate H].
    injection H as <-. reflexivity.
Qed.

(** C7, amended. A frame that does not parse is answered with an error
    frame carrying the parser's error text; a frame whose declared type is
    not the string "send" is answered with the error "unknown command type: "
    followed by that type as a string; a frame whose type cannot be read
    (it parsed to null) or cannot be rendered as a string is answered with
    the text of the TypeError thrown.  Whenever the frame is not a send
    command, exactly one error frame is written, to the connection the frame
    came from; nothing is thrown and no field of the bridge changes. *)
Theorem protocol_errors_local (w : World) (ws : nat) (data : Server.Parsed)
    (outcome : option JsError) :
  let r := Server.on_message ws data outcome w in
  result_of r = Ok tt /\
  world_of r = w /\
  (forall m, data = Server.Unparsable m ->
     calls_of r = [WsSend ws (Server.error_frame (String_error (SyntaxError m)))]) /\
  (forall cmd type t,
     data = Server.Json cmd -> getProp cmd "type" = inr type ->
     strict_eq type "send" = false -> ToString type = inr t ->
     calls_of r = [WsSend ws (Server.error_frame ("unknown command type: " ++ t))]) /\
  (data = Server.Json VNull ->
     calls_of r
     = [WsSend ws (Server.error_frame
                     "TypeError: Cannot read properties of null (reading 'type')")]) /\
  (forall cmd e,
     data = Server.Json cmd -> getProp cmd "type" = inl e ->
     calls_of r = [WsSend ws (Server.error_frame (String_error e))]) /\
  (forall cmd type e,
     data = Server.Json cmd -> getProp cmd "type" = inr type ->
     strict_eq type "send" = false -> ToString type = inl e ->
     calls_of r
     = [WsSend ws (Server.error_frame
                     "TypeError: Cannot convert object to primitive value")]) /\
  (not_a_send data ->
     exists description, calls_of r = [WsSend ws (Server.error_frame description)]).
Proof.
  cbv zeta. destruct (on_message_quiet ws data outcome w) as [Hres Hw].
  split; [exact Hres|]. split; [exact Hw|].
  unfold Server.on_message, try_catch, Server.handleCommand, Server.ws_send.
  split; [|split; [|split; [|split; [|split]]]].
  - intros m ->. reflexivity.
  - intros cmd type t -> Ht Hs Hstr.
    unfold bind, lift, ret, throw, get, emit. rewrite Ht, Hs. cbn [negb].
    rewrite Hstr. reflexivity.
  - intros ->. reflexivity.
  - intros cmd e -> Ht.
    unfold bind, lift, ret, throw, get, emit. rewrite Ht. reflexivity.
  - intros cmd type e -> Ht Hs Hstr.
    unfold bind, lift, ret, throw, get, emit. rewrite Ht, Hs. cbn [negb].
    rewrite Hstr, (ToString_throws type e Hstr). reflexivity.
  - unfold not_a_send. destruct data as [m|cmd]; intros H.
    + eexists. reflexivity.
    + unfold bind, lift, ret, throw, get, emit.
      destruct (getProp cmd "type") as [e|type]; [eexists; reflexivity|].
      rewrite H. cbn [negb].
      destruct (ToString type); eexists; reflexivity.
Qed.

(** An unknown type, and a type that has no string rendering. *)
Lemma protocol_errors_local_witness :
  calls_of (Server.on_message 4 (Server.Json (VObject [("type", VString "ping")]))
              None (world boot))
  = [WsSend 4 (Server.error_frame "unknown command type: ping")] /\
  calls_of (Server.on_message 4
              (Server.Json (VObject [("type", VObject [("toString", VNumber "1")])]))
              None (world boot))
  = [WsSend 4 (Server.error_frame
                 "TypeError: Cannot convert object to primitive value")].
Proof.
  split.
  - pose proof (protocol_errors_local (world boot) 4
                  (Server.Json (VObject [("type", VString "ping")])) None)
      as (_ & _ & _ & H & _).
    apply (H (VObject [("type", VString "ping")]) (VString "ping") "ping");
      reflexivity.
  - pose proof (protocol_errors_local (world boot) 4
                  (Server.Json (VObject [("type", VObject [("toString", VNumber "1")])]))
                  None)
      as (_ & _ & _ & _ & _ & _ & H & _).
    apply (H (VObject [("type", VObject [("toString", VNumber "1")])])
             (VObject [("toString", VNumber "1")])
             (TypeError "Cannot convert object to primitive value"));
      reflexivity.
Defined.

(* ===================================================================== *)
(** ** The session manager *)
(* ===================================================================== *)

(** C1, as stated, fails: after the upstream has closed the session is
    Disconnected, yet a send is handed to the upstream socket and
    acknowledged as sent. *)
Lemma send_after_closure_reaches_upstream :
  let b := run [SockEvent 0 Sample.opened; SockEvent 0 (Sample.closed_with 428)]
               boot in
  session b = Disconnected /\
  result_of (sendMessage (VString "123@s.whatsapp.net") (VString "hi") None (world b))
    = Ok tt /\
  calls_of (Server.on_message 7 (Server.Json Sample.send_cmd) None (world b))
    = [SockSend 0 (VString "123@s.whatsapp.net") (VString "hi");
       WsSend 7 (Server.sent_frame (VString "123@s.whatsapp.net"))].
Proof. cbv zeta. repeat split. Qed.

(** C1, amended. A send fails with the error "Not connected", without
    reaching the upstream library, exactly when the client holds no upstream
    socket, as after [disconnect()]; the session is then Disconnected.  While
    a socket is held, whatever the session state, the send is handed to that
    socket.  The relay reports the outcome to the requesting connection
    alone: the error frame, the acknowledgement, or the upstream's error;
    once [stop()] has cleared the server's client it answers "WhatsApp not
    connected" instead, socket or not, and nothing reaches the upstream. *)
Theorem send_guard (b : Bridge) (ws : nat) (cmd to text : Value)
    (outcome : option JsError) :
  Reachable b ->
  getProp cmd "type" = inr (VString "send") ->
  getProp cmd "to" = inr to -> getProp cmd "text" = inr text ->
  let w := world b in
  (sock w = None ->
     session b = Disconnected /\
     sendMessage to text outcome w = (Throw (Error "Not connected"), w, [])) /\
  (forall s, sock w = Some s ->
     sendMessage to text outcome w
     = (match outcome with None => Ok tt | Some e => Throw e end, w,
        [SockSend s to text])) /\
  (wa w = true -> sock w = None ->
     Server.on_message ws (Server.Json cmd) outcome w
     = (Ok tt, w, [WsSend ws (Server.error_frame "Error: Not connected")])) /\
  (wa w = true -> forall s, sock w = Some s ->
     Server.on_message ws (Server.Json cmd) outcome w
     = (Ok tt, w,
        [SockSend s to text;
         WsSend ws (match outcome with
                    | None => Server.sent_frame to
                    | Some e => Server.error_frame (String_error e)
                    end)])) /\
  (wa w = false ->
     Server.on_message ws (Server.Json cmd) outcome w
     = (Ok tt, w, [WsSend ws (Server.error_frame "WhatsApp not connected")])) /\
  sock (world (step b CallDisconnect)) = None /\
  wa (world (step b CallStop)) = false.
Proof.
  intros Hr Htype Hto Htext w.
  assert (Hm : wa w = true ->
               forall res calls,
               sendMessage to text outcome w = (res, w, calls) ->
               Server.on_message ws (Server.Json cmd) outcome w =
               match res with
               | Ok _ => (Ok tt, w, calls ++ [WsSend ws (Server.sent_frame to)])
               | Throw e =>
                   (Ok tt, w, calls ++ [WsSend ws (Server.error_frame (String_error e))])
               end%list).
  { intros Hwa res calls Hsend.
    unfold Server.on_message, try_catch, Server.handleCommand, Server.ws_send.
    unfold bind, lift, ret, throw, get, emit.
    rewrite Htype. change (strict_eq (VString "send") "send") with true.
    cbn [negb]. rewrite Hwa. cbn [negb]. rewrite Hto, Htext, Hsend.
    destruct res; rewrite ?app_nil_r; reflexivity. }
  assert (Hnone : sock w = None ->
                  sendMessage to text outcome w
                  = (Throw (Error "Not connected"), w, [])).
  { intros Hs. rewrite sendMessage_run, Hs. reflexivity. }
  assert (Hsome : forall s, sock w = Some s ->
                  sendMessage to text outcome w
                  = (match outcome with None => Ok tt | Some e => Throw e end, w,
                     [SockSend s to text])).
  { intros s Hs. rewrite sendMessage_run, Hs. reflexivity. }
  split; [|split; [|split; [|split; [|split; [|split]]]]].
  - intros Hs. split; [exact (inv_session b (reachable_inv b Hr) Hs)|].
    exact (Hnone Hs).
  - exact Hsome.
  - intros Hwa Hs. rewrite (Hm Hwa _ _ (Hnone Hs)). reflexivity.
  - intros Hwa s Hs. rewrite (Hm Hwa _ _ (Hsome s Hs)).
    destruct outcome; reflexivity.
  - intros Hwa.
    unfold Server.on_message, try_catch, Server.handleCommand, Server.ws_send.
    unfold bind, lift, ret, throw, get, emit.
    rewrite Htype. change (strict_eq (VString "send") "send") with true.
    cbn [negb]. rewrite Hwa. reflexivity.
  - unfold step. cbn [world handle]. rewrite disconnect_run.
    destruct (sock (world b)) eqn:E; [reflexivity|exact E].
  - unfold step. cbn [world handle]. rewrite stop_run. cbv zeta.
    cbn [world_of fst snd].
    destruct (closing_fields (clients (world b)) (world b)) as (_ & Ha & _).
    destruct (wa (world b)) eqn:E; [reflexivity|].
    destruct (wss (world b)); cbn; exact Ha.
Qed.

(** After [disconnect()], and after a reconnect that follows [stop()]. *)
Lemma send_guard_witness :
  calls_of (Server.on_message 7 (Server.Json Sample.send_cmd) None
              (world (run [CallDisconnect] boot)))
  = [WsSend 7 (Server.error_frame "Error: Not connected")] /\
  sock (world (run [SockEvent 0 (Sample.closed_with 428); CallStop; Elapse 5000]
                   boot)) = Some 1 /\
  calls_of (Server.on_message 7 (Server.Json Sample.send_cmd) None
              (world (run [SockEvent 0 (Sample.closed_with 428); CallStop;
                           Elapse 5000] boot)))
  = [WsSend 7 (Server.error_frame "WhatsApp not connected")].
Proof.
  split; [|split; [reflexivity|]].
  - assert (Hr : Reachable (run [CallDisconnect] boot)) by (eexists; reflexivity).
    destruct (send_guard (run [CallDisconnect] boot) 7 Sample.send_cmd
                (VString "123@s.whatsapp.net") (VString "hi") None Hr
                eq_refl eq_refl eq_refl)
      as (_ & _ & H & _).
    rewrite (H eq_refl eq_refl). reflexivity.
  - assert (Hr : Reachable (run [SockEvent 0 (Sample.closed_with 428); CallStop;
                                 Elapse 5000] boot)) by (eexists; reflexivity).
    destruct (send_guard _ 7 Sample.send_cmd
                (VString "123@s.whatsapp.net") (VString "hi") None Hr
                eq_refl eq_refl eq_refl)
      as (_ & _ & _ & _ & H & _).
    rewrite (H eq_refl). reflexivity.
Defined.

(** *** Closures and the reconnect timer *)

Lemma count_app p a b : count p (a ++ b)%list = count p a + count p b.
Proof. unfold count. rewrite filter_app, length_app. reflexivity. Qed.

Lemma count_frames_timeout data w cs : count is_SetTimeout (frames data w cs) = 0.
Proof.
  induction cs as [|c cs IH]; [reflexivity|]. rewrite frames_cons.
  destruct (is_open _); [|exact IH]. exact IH.
Qed.

Lemma count_qr_timeout update w : count is_SetTimeout (qr_calls update w) = 0.
Proof.
  unfold qr_calls. destruct (Proto.qr update) as [[|a r]|]; try reflexivity.
  apply (count_frames_timeout _ w (clients w)).
Qed.

Lemma timer_inv_flag w : timer_inv w -> (reconnecting w = false <-> timers w = []).
Proof.
  unfold timer_inv. destruct (reconnecting w).
  - intros (d & -> & _). split; discriminate.
  - intros ->. split; reflexivity.
Qed.

(** What a closure does: it tells the controllers, and starts the
    reconnect timer unless the closure is a logout or a timer is pending. *)
Lemma closure_run s update w :
  s < made w -> is_close update = true ->
  handle (SockEvent s (ConnectionUpdate update)) w =
  if negb (logout update) && negb (reconnecting w) then
    (Ok tt,
     set_timers (timers w ++ [(now w + 5000)%Z])%list (set_reconnecting true w),
     (qr_calls update w ++ disconnected_frames w ++ [SetTimeout 5000])%list)
  else (Ok tt, w, (qr_calls update w ++ disconnected_frames w)%list).
Proof.
  intros Hs Hc. rewrite sock_event_run.
  replace (Nat.ltb s (made w)) with true by (symmetry; apply Nat.ltb_lt; exact Hs).
  rewrite on_connection_update_run, Hc. unfold logout. rewrite negb_involutive.
  reflexivity.
Qed.

(** While a reconnect is pending and not yet due, further transient
    closures and the passing of time schedule nothing. *)
Lemma pending_absorbs (d : Z) (evs : list Event) : forall b,
  Inv b -> timers (world b) = [d] ->
  (now (world b) + Z.of_nat (elapsed evs) < d)%Z ->
  forallb (fun e => transient_closure e || is_elapse e) evs = true ->
  timers (world (run evs b)) = [d] /\
  made (world (run evs b)) = made (world b) /\
  count is_SetTimeout (log (run evs b)) = count is_SetTimeout (log b).
Proof.
  induction evs as [|e evs IH]; intros b Hinv Ht Hnow Hall; [cbn; auto|].
  cbn [forallb] in Hall. apply andb_prop in Hall. destruct Hall as [He Hall].
  assert (Hrec : reconnecting (world b) = true).
  { pose proof (inv_timer b Hinv) as Hti. unfold timer_inv in Hti.
    destruct (reconnecting (world b)); [reflexivity|].
    rewrite Ht in Hti. discriminate. }
  assert (Hstep : timers (world (step b e)) = [d] /\
                  made (world (step b e)) = made (world b) /\
                  count is_SetTimeout (log (step b e)) = count is_SetTimeout (log b) /\
                  (now (world (step b e)) + Z.of_nat (elapsed evs) < d)%Z).
  { destruct e as [ws|ws data outcome|ws|ws|ws r|s ev|ms| | |to text outcome| ];
      try discriminate He.
    - destruct ev as [update|messages type]; [|discriminate He].
      cbn in He. rewrite orb_false_r in He. apply andb_prop in He.
      destruct He as [Hc Hl]. unfold step. cbn [world log].
      rewrite sock_event_run, on_connection_update_run, Hc, Hrec.
      rewrite andb_false_r.
      destruct (Nat.ltb s (made (world b)));
        cbn [world_of calls_of fst snd elapsed] in *;
        rewrite ?count_app, ?count_qr_timeout; unfold disconnected_frames;
        rewrite ?count_frames_timeout; repeat split; auto; cbn; lia.
    - unfold step. cbn [world log]. rewrite elapse_run. cbv zeta.
      unfold due_timers, later_timers. cbn [now timers set_now set_timers].
      rewrite Ht. cbn [filter]. cbn [elapsed] in Hnow.
      replace (Z.leb d (now (world b) + Z.of_nat ms)) with false
        by (symmetry; apply Z.leb_gt; lia).
      replace (Z.ltb (now (world b) + Z.of_nat ms) d) with true
        by (symmetry; apply Z.ltb_lt; lia).
      cbn. rewrite count_app. cbn. repeat split; try lia. }
  destruct Hstep as (Ht' & Hm' & Hc' & Hnow').
  cbn [run fold_left]. fold (run evs (step b e)).
  destruct (IH (step b e) (step_inv b e Hinv) Ht' Hnow' Hall) as (H1 & H2 & H3).
  repeat split; congruence.
Qed.

(** C2. However the bridge got where it is, at most one reconnect timer is
    pending.  A closure that arrives while one is pending schedules nothing;
    and a transient closure arriving when none is pending, followed within
    the 5 s delay by any number of further transient closures, schedules
    exactly one reconnect in total. *)
Theorem single_pending_reconnect (evs : list Event) :
  let b := run evs boot in
  let w := world b in
  List.length (timers w) <= 1 /\
  (forall s update,
     s < made w -> is_close update = true -> timers w <> [] ->
     let r := handle (SockEvent s (ConnectionUpdate update)) w in
     timers (world_of r) = timers w /\ count is_SetTimeout (calls_of r) = 0) /\
  (forall s update rest,
     s < made w ->
     transient_closure (SockEvent s (ConnectionUpdate update)) = true ->
     forallb (fun e => transient_closure e || is_elapse e) rest = true ->
     elapsed rest < 5000 -> timers w = [] ->
     let b' := run (SockEvent s (ConnectionUpdate update) :: rest) b in
     timers (world b') = [(now w + 5000)%Z] /\
     count is_SetTimeout (log b') = S (count is_SetTimeout (log b))).
Proof.
  intros b w.
  assert (Hinv : Inv b) by (apply run_inv, boot_inv).
  pose proof (inv_timer b Hinv) as Hti. fold w in Hti.
  split; [|split].
  - unfold timer_inv in Hti. destruct (reconnecting w).
    + destruct Hti as (d & -> & _). cbn. lia.
    + rewrite Hti. cbn. lia.
  - intros s update Hs Hc Hne r. subst r. rewrite (closure_run s update w Hs Hc).
    assert (Hrec : reconnecting w = true).
    { destruct (reconnecting w) eqn:E; [reflexivity|].
      apply (timer_inv_flag w Hti) in E. contradiction. }
    rewrite Hrec, andb_false_r. cbn [world_of calls_of fst snd].
    split; [reflexivity|].
    rewrite count_app, count_qr_timeout. apply count_frames_timeout.
  - intros s update rest Hs Htc Hall Hel Hts b'.
    cbn in Htc. apply andb_prop in Htc. destruct Htc as [Hc Hl].
    assert (Hrec : reconnecting w = false) by (apply (timer_inv_flag w Hti), Hts).
    set (b1 := step b (SockEvent s (ConnectionUpdate update))).
    assert (H1 : timers (world b1) = [(now w + 5000)%Z] /\
                 now (world b1) = now w /\
                 count is_SetTimeout (log b1) = S (count is_SetTimeout (log b))).
    { unfold b1, step. cbn [world log]. fold w.
      rewrite (closure_run s update w Hs Hc), Hl, Hrec.
      cbn [negb andb world_of calls_of fst snd timers set_timers now set_reconnecting].
      rewrite Hts. repeat split.
      rewrite !count_app, count_qr_timeout. unfold disconnected_frames.
      rewrite count_frames_timeout. cbn. lia. }
    destruct H1 as (Ht1 & Hn1 & Hc1).
    assert (Hinv1 : Inv b1) by (apply step_inv, Hinv).
    destruct (pending_absorbs (now w + 5000)%Z rest b1 Hinv1 Ht1) as (Ha & _ & Hb).
    + rewrite Hn1. lia.
    + exact Hall.
    + unfold b'. cbn [run fold_left]. fold b1. fold (run rest b1).
      split; [exact Ha|]. rewrite Hb. exact Hc1.
Qed.

(** Two transient closures one second apart, right after start-up. *)
Lemma single_pending_reconnect_witness :
  let b' := run [SockEvent 0 (Sample.closed_with 428); Elapse 1000;
                 SockEvent 0 (Sample.closed_with 408)] boot in
  timers (world b') = [5000%Z] /\ count is_SetTimeout (log b') = 1.
Proof.
  destruct (single_pending_reconnect []) as (_ & _ & H).
  refine (H 0 _ [Elapse 1000; SockEvent 0 (Sample.closed_with 408)] _ _ _ _ _).
  - cbn. lia.
  - reflexivity.
  - reflexivity.
  - cbn. lia.
  - reflexivity.
Defined.





(** *** [connect()] *)

(** C8, as stated, fails: called while the session is Connected,
    [connect()] makes a second upstream socket without ending the first, and
    when that socket opens the controllers are told "connected" a second
    time. *)
Lemma connect_while_connected_duplicates :
  let b := run [WsConnection 5; SockEvent 0 Sample.opened] boot in
  let b' := run [CallConnect; SockEvent 1 Sample.opened] b in
  session b = Connected /\
  log b = [MakeSocket 0; WsSend 5 (JSON_stringify (status_event "connected"))] /\
  log b' = [MakeSocket 0; WsSend 5 (JSON_stringify (status_event "connected"));
            MakeSocket 1; WsSend 5 (JSON_stringify (status_event "connected"))].
Proof. cbv zeta. repeat split. Qed.

(** C8, amended. [connect()] is not guarded by the session state: every
    call, also while Connected, makes exactly one new upstream socket and
    stores it as the current one; it ends no socket, writes no frame and
    changes nothing else.  The status "connected" is broadcast each time a
    socket that was made reports that it is open. *)
Theorem connect_makes_socket (w : World) :
  let r := connect w in
  result_of r = Ok tt /\
  calls_of r = [MakeSocket (made w)] /\
  made (world_of r) = S (made w) /\
  sock (world_of r) = Some (made w) /\
  clients (world_of r) = clients w /\
  reconnecting (world_of r) = reconnecting w /\
  timers (world_of r) = timers w /\
  (forall s update,
     s < made w -> is_open_update update = true ->
     calls_of (handle (SockEvent s (ConnectionUpdate update)) w)
     = (qr_calls update w ++ connected_frames w)%list).
Proof.
  cbv zeta. rewrite connect_run. cbn [result_of calls_of world_of fst snd].
  repeat split.
  intros s update Hs Ho. rewrite sock_event_run.
  replace (Nat.ltb s (made w)) with true by (symmetry; apply Nat.ltb_lt; exact Hs).
  rewrite on_connection_update_run, Ho.
  destruct (is_close update) eqn:Hc; [|reflexivity].
  apply close_not_open in Hc. congruence.
Qed.

Lemma connect_makes_socket_witness :
  let b := run [WsConnection 5; SockEvent 0 Sample.opened; CallConnect] boot in
  calls_of (handle (SockEvent 1 Sample.opened) (world b))
  = [WsSend 5 (JSON_stringify (status_event "connected"))].
Proof.
  intros b.
  destruct (connect_makes_socket (world b)) as (_ & _ & _ & _ & _ & _ & _ & H).
  apply (H 1 (Proto.Build_ConnectionState (Some "open") None None)).
  - cbn. lia.
  - reflexivity.
Defined.

(* ===================================================================== *)
(** ** Further properties of the bridge *)
(* ===================================================================== *)

Lemma handle_world e w : world_of (handle e w) = after e w.
Proof.
  destruct e as [ws|ws data outcome|ws|ws|ws r|s ev|ms| | |to text outcome| ].
  - reflexivity.
  - apply on_message_quiet.
  - reflexivity.
  - reflexivity.
  - reflexivity.
  - rewrite sock_event_run. cbn [after].
    destruct ev as [update|messages type].
    + rewrite on_connection_update_run.
      destruct (Nat.ltb s (made w)); [|reflexivity]. cbn [andb].
      destruct (is_close update); cbn [andb].
      * destruct (shouldReconnect (statusCode_of update) && negb (reconnecting w));
          reflexivity.
      * destruct (is_open_update update); reflexivity.
    + rewrite on_messages_upsert_run. destruct (Nat.ltb s (made w)); reflexivity.
  - rewrite elapse_run. reflexivity.
  - reflexivity.
  - cbn [handle after]. rewrite disconnect_run. destruct (sock w); reflexivity.
  - cbn [handle after]. rewrite sendMessage_run. destruct (sock w); reflexivity.
  - cbn [handle after]. rewrite stop_run. reflexivity.
Qed.

Lemma step_world b e : world (step b e) = after e (world b).
Proof. apply handle_world. Qed.

Lemma step_log b e : log (step b e) = (log b ++ calls_of (handle e (world b)))%list.
Proof. reflexivity. Qed.

(** The calls of the controller's [message] handler: at most one upstream
    send, then one frame to the sender. *)
Lemma on_message_calls ws data outcome w :
  exists reply,
    calls_of (Server.on_message ws data outcome w) = [WsSend ws reply] \/
    exists s to text,
      sock w = Some s /\
      calls_of (Server.on_message ws data outcome w)
      = [SockSend s to text; WsSend ws reply].
Proof.
  unfold Server.on_message, try_catch, Server.handleCommand, Server.ws_send.
  destruct data as [m|cmd]; [eexists; left; reflexivity|].
  unfold bind, lift, ret, throw, get, emit.
  destruct (getProp cmd "type") as [e|type]; [eexists; left; reflexivity|].
  destruct (strict_eq type "send"); cbn [negb].
  - destruct (wa w); cbn [negb]; [|eexists; left; reflexivity].
    destruct (getProp cmd "to") as [e|to]; [eexists; left; reflexivity|].
    destruct (getProp cmd "text") as [e|text]; [eexists; left; reflexivity|].
    rewrite sendMessage_run.
    destruct (sock w) as [s|] eqn:Es; [|eexists; left; reflexivity].
    destruct outcome; eexists; right; exists s, to, text; split; reflexivity.
  - destruct (ToString type); eexists; left; reflexivity.
Qed.

Lemma in_frames_permitted data w e c :
  In c (frames data w (clients w)) -> permitted w e c.
Proof.
  intros H. apply in_frames in H. destruct H as (ws & -> & Hin & Ho).
  left. split; assumption.
Qed.

Lemma in_qr_calls_permitted s update w c :
  In c (qr_calls update w) ->
  permitted w (SockEvent s (ConnectionUpdate update)) c.
Proof.
  unfold qr_calls. destruct (Proto.qr update) as [[|a r]|]; try contradiction.
  intros [<-|H].
  - exists s, update. reflexivity.
  - eapply in_frames_permitted. exact H.
Qed.

Lemma calls_permitted (w : World) (e : Event) (c : Effect) :
  In c (calls_of (handle e w)) -> permitted w e c.
Proof.
  intros Hin.
  destruct e as [ws|ws data outcome|ws|ws|ws r|s ev|ms| | |to text outcome| ].
  - cbn in Hin. contradiction.
  - cbn [handle] in Hin.
    destruct (on_message_calls ws data outcome w)
      as [reply [H|(s & to & text & Hs & H)]]; rewrite H in Hin.
    + destruct Hin as [<-|[]]. right. cbn. apply Nat.eqb_refl.
    + destruct Hin as [<-|[<-|[]]].
      * split; [exact Hs|reflexivity].
      * right. cbn. apply Nat.eqb_refl.
  - cbn in Hin. contradiction.
  - cbn in Hin. contradiction.
  - cbn in Hin. contradiction.
  - rewrite sock_event_run in Hin.
    destruct (Nat.ltb s (made w)); [|cbn in Hin; contradiction].
    destruct ev as [update|messages type].
    + rewrite on_connection_update_run in Hin.
      destruct (is_close update) eqn:Hc.
      * destruct (shouldReconnect (statusCode_of update) && negb (reconnecting w))
          eqn:E; cbn [calls_of snd] in Hin.
        -- apply in_app_or in Hin. destruct Hin as [Hin|Hin];
             [eapply in_qr_calls_permitted; exact Hin|].
           apply in_app_or in Hin. destruct Hin as [Hin|[<-|[]]];
             [eapply in_frames_permitted; exact Hin|].
           apply andb_prop in E. destruct E as [E1 E2].
           cbn. unfold logout. rewrite Hc, E1. cbn.
           repeat split. destruct (reconnecting w); [discriminate|reflexivity].
        -- apply in_app_or in Hin. destruct Hin as [Hin|Hin];
             [eapply in_qr_calls_permitted; exact Hin
             |eapply in_frames_permitted; exact Hin].
      * destruct (is_open_update update); cbn [calls_of snd] in Hin.
        -- apply in_app_or in Hin. destruct Hin as [Hin|Hin];
             [eapply in_qr_calls_permitted; exact Hin
             |eapply in_frames_permitted; exact Hin].
        -- eapply in_qr_calls_permitted; exact Hin.
    + rewrite on_messages_upsert_run in Hin. cbn [calls_of snd] in Hin.
      destruct (String.eqb type "notify"); [|contradiction].
      apply in_flat_map in Hin. destruct Hin as (msg & _ & Hin).
      destruct (normalize msg); [|contradiction].
      eapply in_frames_permitted; exact Hin.
  - rewrite elapse_run in Hin. cbv zeta in Hin. cbn [calls_of snd] in Hin.
    apply in_map_iff in Hin. destruct Hin as (s & <- & Hs).
    apply in_seq in Hs. split; [lia|]. right. split; [reflexivity|].
    intros Ht. unfold due_timers in Hs. cbn [timers set_now] in Hs.
    rewrite Ht in Hs. cbn in Hs. lia.
  - cbn in Hin. destruct Hin as [<-|[]]. split; [lia|left; reflexivity].
  - cbn [handle] in Hin. rewrite disconnect_run in Hin.
    destruct (sock w) as [s|] eqn:Es; cbn in Hin; [|contradiction].
    destruct Hin as [<-|[]]. split; [exact Es|left; reflexivity].
  - cbn [handle] in Hin. rewrite sendMessage_run in Hin.
    destruct (sock w) as [s|] eqn:Es; cbn in Hin; [|contradiction].
    destruct Hin as [<-|[]]. split; [exact Es|reflexivity].
  - cbn [handle] in Hin. rewrite stop_run in Hin. cbv zeta in Hin.
    cbn [calls_of snd] in Hin.
    apply in_app_or in Hin. destruct Hin as [Hin|Hin].
    + apply in_map_iff in Hin. destruct Hin as (ws & <- & Hws).
      split; [reflexivity|exact Hws].
    + apply in_app_or in Hin. destruct Hin as [Hin|Hin].
      * destruct (wss w) eqn:El; [|contradiction].
        destruct Hin as [<-|[]]. split; [reflexivity|exact El].
      * destruct (wa w); [|contradiction].
        destruct (sock w) as [s|] eqn:Es; [|contradiction].
        destruct Hin as [<-|[]]. split; [exact Es|right; reflexivity].
Qed.

Lemma reachable_next b e : Reachable b -> Reachable (step b e).
Proof.
  intros [evs ->]. exists (evs ++ [e])%list.
  unfold run. rewrite fold_left_app. reflexivity.
Qed.

Lemma reachable_later evs : forall b, Reachable b -> Reachable (run evs b).
Proof.
  induction evs as [|e evs IH]; intros b H; [assumption|].
  cbn. apply IH, reachable_next, H.
Qed.

Lemma count_none p l : (forall c, In c l -> p c = false) -> count p l = 0.
Proof.
  unfold count. induction l as [|x l IH]; intros H; [reflexivity|].
  cbn. rewrite (H x (or_introl eq_refl)). apply IH.
  intros c Hc. apply H. right. exact Hc.
Qed.

(** *** The current socket *)

Lemma after_made e w : made w <= made (after e w).
Proof.
  destruct e as [ws|ws data outcome|ws|ws|ws r|s ev|ms| | |to text outcome| ];
    cbn [after]; try (cbn; lia).
  - destruct ev as [update|messages type]; [|lia].
    destruct (_ && _); cbn; lia.
  - cbv zeta. destruct (List.length _); cbn; lia.
  - destruct (sock w); cbn; lia.
  - destruct (closing_fields (clients w) w) as (_ & _ & _ & _ & _ & _ & _ & Em).
    cbv zeta. destruct (wss w), (wa w), (sock w); cbn; lia.
Qed.

Lemma after_latest e w :
  (forall s, sock w = Some s -> S s = made w) ->
  forall s, sock (after e w) = Some s -> S s = made (after e w).
Proof.
  intros H.
  destruct e as [ws|ws data outcome|ws|ws|ws r|s0 ev|ms| | |to text outcome| ];
    cbn [after]; try exact H.
  - destruct ev as [update|messages type]; [|exact H].
    destruct (_ && _); exact H.
  - cbv zeta. destruct (List.length _) as [|k]; cbn; [exact H|].
    intros s [= <-]. lia.
  - cbn. intros s [= <-]. reflexivity.
  - destruct (sock w) eqn:E; cbn; [discriminate|]. rewrite E. discriminate.
  - destruct (closing_fields (clients w) w) as (_ & _ & _ & Es & _ & _ & _ & Em).
    cbv zeta. destruct (wss w), (wa w), (sock w) eqn:E; cbn;
      rewrite ?Es, ?Em, ?E; try discriminate; exact H.
Qed.

Lemma run_latest (evs : list Event) : forall b,
  (forall s, sock (world b) = Some s -> S s = made (world b)) ->
  forall s, sock (world (run evs b)) = Some s -> S s = made (world (run evs b)).
Proof.
  induction evs as [|e evs IH]; intros b Hb; [exact Hb|].
  cbn [run fold_left]. apply IH. rewrite step_world. apply after_latest, Hb.
Qed.

Lemma reachable_latest b s :
  Reachable b -> sock (world b) = Some s -> S s = made (world b).
Proof.
  intros [evs ->]. apply run_latest. cbn. intros s' [= <-]. reflexivity.
Qed.

(** The client's current socket is always the one made last: a reconnect
    or a further [connect()] replaces it, nothing ever puts an earlier
    socket back, and a send goes to the socket made last. *)
Theorem current_socket_is_latest (b : Bridge) (s : nat) :
  Reachable b -> sock (world b) = Some s ->
  S s = made (world b) /\
  forall to text outcome,
    calls_of (sendMessage to text outcome (world b))
    = [SockSend (made (world b) - 1) to text].
Proof.
  intros Hr Hs. pose proof (reachable_latest b s Hr Hs) as Hm.
  split; [exact Hm|]. intros to text outcome.
  rewrite sendMessage_run, Hs. cbn. do 2 f_equal. lia.
Qed.

Lemma current_socket_is_latest_witness :
  let b := run [SockEvent 0 (Sample.closed_with 428); Elapse 5000; CallConnect]
               boot in
  3 = made (world b) /\
  calls_of (sendMessage (VString "1@s.whatsapp.net") (VString "hi") None (world b))
  = [SockSend 2 (VString "1@s.whatsapp.net") (VString "hi")].
Proof.
  intros b.
  assert (Hr : Reachable b) by (eexists; reflexivity).
  destruct (current_socket_is_latest b 2 Hr eq_refl) as [Hm Hs].
  split; [exact Hm|apply Hs].
Defined.

(** A socket that has been replaced is never used again: the bridge
    neither sends on it nor ends it, whatever happens later. *)
Theorem replaced_socket_unused (evs : list Event) : forall (b : Bridge) (s0 : nat),
  Reachable b -> S s0 < made (world b) ->
  count (uses_socket s0) (log (run evs b)) = count (uses_socket s0) (log b).
Proof.
  induction evs as [|e evs IH]; intros b s0 Hr Hlt; [reflexivity|].
  cbn [run fold_left]. fold (run evs (step b e)).
  assert (Hlt' : S s0 < made (world (step b e))).
  { rewrite step_world. pose proof (after_made e (world b)). lia. }
  rewrite (IH (step b e) s0 (reachable_next b e Hr) Hlt'), step_log, count_app.
  rewrite (count_none (uses_socket s0) (calls_of (handle e (world b)))); [lia|].
  intros c Hc. apply calls_permitted in Hc.
  destruct c as [ws d|ws| |s|s to text|s|d|q]; try reflexivity; cbn.
  - destruct Hc as [Hs _]. apply Nat.eqb_neq. intros ->.
    pose proof (reachable_latest b s0 Hr Hs). lia.
  - destruct Hc as [Hs _]. apply Nat.eqb_neq. intros ->.
    pose proof (reachable_latest b s0 Hr Hs). lia.
Qed.

Lemma replaced_socket_unused_witness :
  count (uses_socket 0)
    (log (run [WsMessage 7 (Server.Json Sample.send_cmd) None; CallDisconnect;
               CallStop] (run [CallConnect] boot))) = 0.
Proof.
  rewrite (replaced_socket_unused
             [WsMessage 7 (Server.Json Sample.send_cmd) None; CallDisconnect;
              CallStop] (run [CallConnect] boot) 0).
  - reflexivity.
  - eexists. reflexivity.
  - cbn. lia.
Defined.

(** Every call in the log of a run was made by one of its events, and is
    one that event permits in the world it met: frames go to
    registered open connections or back to the sender of a frame; only
    [stop()] closes connections and the listener; sockets are made only by
    [connect()] and a due timer; only a command sends upstream, and only on
    the current socket; only [disconnect()] and [stop()] end a socket, and
    only the current one; a timer is set only by a transient closure while
    none is pending, and always for 5000 ms. *)
Theorem every_call_permitted (evs : list Event) : forall (b : Bridge) (c : Effect),
  In c (log (run evs b)) ->
  In c (log b) \/
  exists before e later,
    evs = (before ++ e :: later)%list /\
    In c (calls_of (handle e (world (run before b)))) /\
    permitted (world (run before b)) e c.
Proof.
  induction evs as [|e evs IH]; intros b c Hin; [left; exact Hin|].
  cbn [run fold_left] in Hin. fold (run evs (step b e)) in Hin.
  destruct (IH (step b e) c Hin) as [Hl|(before & e' & later & -> & Hc & Hp)].
  - rewrite step_log in Hl. apply in_app_or in Hl. destruct Hl as [Hl|Hl].
    + left. exact Hl.
    + right. exists [], e, evs. split; [reflexivity|].
      split; [exact Hl|]. apply calls_permitted. exact Hl.
  - right. exists (e :: before), e', later. split; [reflexivity|].
    split; assumption.
Qed.

Lemma every_call_permitted_witness :
  exists before e later,
    [WsConnection 5; CallStop] = (before ++ e :: later)%list /\
    In (SockEnd 0) (calls_of (handle e (world (run before boot)))) /\
    permitted (world (run before boot)) e (SockEnd 0).
Proof.
  destruct (every_call_permitted [WsConnection 5; CallStop] boot (SockEnd 0))
    as [H|H].
  - cbn. right. right. right. left. reflexivity.
  - cbn in H. destruct H as [[=]|[]].
  - exact H.
Defined.

(** *** The set of controller connections *)

Lemma in_set_add c ws l : In c (Server.set_add ws l) <-> c = ws \/ In c l.
Proof.
  unfold Server.set_add. destruct (existsb (Nat.eqb ws) l) eqn:E.
  - split; [intros H; right; exact H|]. intros [->|H]; [|exact H].
    apply existsb_exists in E. destruct E as (x & Hx & Ex).
    apply Nat.eqb_eq in Ex. subst x. exact Hx.
  - rewrite in_app_iff. cbn. split.
    + intros [H|[H|[]]]; [right; exact H|left; symmetry; exact H].
    + intros [->|H]; [right; left; reflexivity|left; exact H].
Qed.

Lemma in_set_delete c ws l : In c (Server.set_delete ws l) <-> c <> ws /\ In c l.
Proof.
  unfold Server.set_delete. rewrite filter_In. split.
  - intros [H E]. split; [|exact H]. apply negb_true_iff, Nat.eqb_neq in E. exact E.
  - intros [E H]. split; [exact H|]. apply negb_true_iff, Nat.eqb_neq. exact E.
Qed.

Lemma set_delete_absent c l : ~ In c l -> Server.set_delete c l = l.
Proof.
  unfold Server.set_delete. induction l as [|x l IH]; intros H; [reflexivity|].
  cbn. assert (Hx : Nat.eqb x c = false).
  { apply Nat.eqb_neq. intros ->. apply H. left. reflexivity. }
  rewrite Hx. cbn. f_equal. apply IH. intros Hin. apply H. right. exact Hin.
Qed.

Lemma set_delete_add c l : ~ In c l -> Server.set_delete c (Server.set_add c l) = l.
Proof.
  intros H. unfold Server.set_add.
  destruct (existsb (Nat.eqb c) l) eqn:E.
  - apply existsb_exists in E. destruct E as (x & Hx & Ex).
    apply Nat.eqb_eq in Ex. subst x. contradiction.
  - unfold Server.set_delete. rewrite filter_app. cbn. rewrite Nat.eqb_refl. cbn.
    rewrite app_nil_r. apply (set_delete_absent c l H).
Qed.

Lemma sends_to_app c a b :
  sends_to c (a ++ b)%list = (sends_to c a ++ sends_to c b)%list.
Proof. apply flat_map_app. Qed.


(** An accepted connection is registered once and open, so the next
    broadcast writes to it exactly once, after the connections registered
    before it; accepting it again changes nothing. *)
Theorem accepted_connection_registered (b : Bridge) (c : nat) :
  Reachable b ->
  let b1 := step b (WsConnection c) in
  In c (clients (world b1)) /\
  readyState (world b1) c = OPEN /\
  calls_of (handle (WsConnection c) (world b)) = [] /\
  (~ In c (clients (world b)) ->
     clients (world b1) = (clients (world b) ++ [c])%list) /\
  clients (world (step b1 (WsConnection c))) = clients (world b1) /\
  (forall event,
     sends_to c (calls_of (Server.broadcast event (world b1)))
     = [JSON_stringify event]).
Proof.
  intros Hr b1.
  assert (Hin : In c (clients (world b1))).
  { unfold b1. rewrite step_world. cbn. apply in_set_add. left. reflexivity. }
  assert (Ho : readyState (world b1) c = OPEN).
  { unfold b1. rewrite step_world. cbn. rewrite Nat.eqb_refl. reflexivity. }
  split; [exact Hin|]. split; [exact Ho|]. split; [reflexivity|]. split; [|split].
  - intros Hn. unfold b1. rewrite step_world. cbn. unfold Server.set_add.
    destruct (existsb (Nat.eqb c) (clients (world b))) eqn:E; [|reflexivity].
    apply existsb_exists in E. destruct E as (x & Hx & Ex).
    apply Nat.eqb_eq in Ex. subst x. contradiction.
  - rewrite step_world. cbn [after clients set_clients set_readyState].
    unfold Server.set_add at 1.
    destruct (existsb (Nat.eqb c) (clients (world b1))) eqn:E; [reflexivity|].
    assert (existsb (Nat.eqb c) (clients (world b1)) = true); [|congruence].
    apply existsb_exists. exists c. split; [exact Hin|apply Nat.eqb_refl].
  - intros event. rewrite broadcast_run. cbn [calls_of snd].
    pose proof (inv_clients b1 (step_inv b _ (reachable_inv b Hr))) as Hnd.
    rewrite (sends_to_frames _ _ c _ Hnd Hin), Ho. reflexivity.
Qed.

Lemma accepted_connection_registered_witness :
  let b1 := step (run [WsConnection 1] boot) (WsConnection 2) in
  clients (world b1) = [1; 2] /\
  sends_to 2 (calls_of (Server.broadcast (status_event "connected") (world b1)))
  = [JSON_stringify (status_event "connected")].
Proof.
  intros b1.
  assert (Hr : Reachable (run [WsConnection 1] boot)) by (eexists; reflexivity).
  destruct (accepted_connection_registered (run [WsConnection 1] boot) 2 Hr)
    as (_ & _ & _ & Ha & _ & Hb).
  split; [apply Ha; cbn; intros [H|[]]; discriminate|apply Hb].
Defined.

(** When a connection closes or fails it alone leaves the set: the other
    connections stay registered in their order, nothing is written, and no
    later broadcast writes to it.  Accepting a connection and then losing it
    leaves the set as it was. *)
Theorem lost_connection_removed (w : World) (c : nat) (e : Event) :
  e = WsClosed c \/ e = WsError c ->
  ~ In c (clients (after e w)) /\
  (forall c', c' <> c -> (In c' (clients (after e w)) <-> In c' (clients w))) /\
  calls_of (handle e w) = [] /\
  (forall event, sends_to c (calls_of (Server.broadcast event (after e w))) = []) /\
  (~ In c (clients w) -> clients (after e (after (WsConnection c) w)) = clients w).
Proof.
  intros He.
  assert (Hw : after e w = set_clients (Server.set_delete c (clients w)) w)
    by (destruct He as [-> | ->]; reflexivity).
  assert (Hout : ~ In c (clients (after e w))).
  { rewrite Hw. cbn. rewrite in_set_delete. intros [H _]. apply H. reflexivity. }
  split; [exact Hout|]. split; [|split; [|split]].
  - intros c' Hc'. rewrite Hw. cbn. rewrite in_set_delete. tauto.
  - destruct He as [-> | ->]; reflexivity.
  - intros event. rewrite broadcast_run. cbn [calls_of snd].
    apply sends_to_frames_out. exact Hout.
  - intros Hn. destruct He as [-> | ->]; cbn; apply set_delete_add; exact Hn.
Qed.

Lemma lost_connection_removed_witness :
  clients (world (run [WsConnection 1; WsConnection 2; WsConnection 3; WsError 2]
                      boot)) = [1; 3] /\
  ~ In 2 (clients (world (run [WsConnection 1; WsConnection 2; WsConnection 3;
                               WsError 2] boot))).
Proof.
  split; [reflexivity|].
  apply (lost_connection_removed
           (world (run [WsConnection 1; WsConnection 2; WsConnection 3] boot))
           2 (WsError 2)).
  right. reflexivity.
Defined.




(** *** Shutdown *)

Lemma closing_ready cs : forall w c,
  readyState (closing cs w) c =
  if existsb (Nat.eqb c) cs then closed_state (readyState w c) else readyState w c.
Proof.
  induction cs as [|x cs IH]; intros w c; [reflexivity|].
  cbn [closing fold_left existsb]. fold (closing cs).
  rewrite IH. destruct (Nat.eqb c x) eqn:E.
  - apply Nat.eqb_eq in E. subst x. cbn [orb].
    destruct (readyState w c) eqn:R; cbn; rewrite ?Nat.eqb_refl, ?R;
      destruct (existsb (Nat.eqb c) cs); reflexivity.
  - cbn [orb]. destruct (readyState w x); cbn; rewrite ?E; reflexivity.
Qed.

(** [stop()] calls [close()] once on each registered connection, in
    registration order, then closes the listener, then ends the upstream
    socket.  It leaves the set empty and the server without listener or
    client; the connections that were open are closing; a broadcast or a
    second [stop()] then does nothing. *)
Theorem stop_shuts_down (w : World) :
  let r := Server.stop w in
  result_of r = Ok tt /\
  calls_of r = stop_calls w /\
  clients (world_of r) = [] /\
  wss (world_of r) = false /\
  wa (world_of r) = false /\
  (wa w = true -> sock (world_of r) = None) /\
  (forall c, In c (clients w) -> readyState w c = OPEN ->
     readyState (world_of r) c = CLOSING) /\
  (forall event, calls_of (Server.broadcast event (world_of r)) = []) /\
  calls_of (Server.stop (world_of r)) = [].
Proof.
  cbv zeta. rewrite stop_run. cbv zeta. cbn [result_of calls_of world_of fst snd].
  set (w' := if wa w then set_wa false _ else _).
  destruct (closing_fields (clients w) w) as (Hl & Ha & _ & Hs & _).
  assert (Hf : clients w' = [] /\ wss w' = false /\ wa w' = false /\
               (wa w = true -> sock w' = None) /\
               forall c, readyState w' c = readyState (closing (clients w) w) c).
  { unfold w'. destruct (wss w) eqn:El, (wa w) eqn:Ea, (sock w) eqn:Es; cbn;
      rewrite ?Hl, ?Ha, ?Hs; repeat split; congruence. }
  destruct Hf as (Hc & Hl' & Ha' & Hs' & Hr).
  split; [reflexivity|]. split; [reflexivity|]. split; [exact Hc|].
  split; [exact Hl'|]. split; [exact Ha'|]. split; [exact Hs'|].
  split; [|split].
  - intros c Hin Ho. rewrite Hr, closing_ready, Ho.
    replace (existsb (Nat.eqb c) (clients w)) with true; [reflexivity|].
    symmetry. apply existsb_exists. exists c. split; [exact Hin|apply Nat.eqb_refl].
  - intros event. rewrite broadcast_run. cbn [calls_of snd]. rewrite Hc. reflexivity.
  - rewrite stop_run. cbv zeta. cbn [calls_of snd]. rewrite Hc, Hl', Ha'. reflexivity.
Qed.

Lemma stop_shuts_down_witness :
  let w := world (run [WsConnection 1; WsConnection 2] boot) in
  calls_of (Server.stop w) = [WsClose 1; WsClose 2; WssClose; SockEnd 0] /\
  sock (world_of (Server.stop w)) = None /\
  readyState (world_of (Server.stop w)) 2 = CLOSING.
Proof.
  intros w.
  destruct (stop_shuts_down w) as (_ & Hc & _ & _ & _ & Hs & Hr & _).
  split; [exact Hc|]. split; [apply Hs; reflexivity|].
  apply Hr; [right; left; reflexivity|reflexivity].
Defined.

(** Neither [disconnect()] nor [stop()] cancels a pending reconnect: the
    timer stays, and when it is due the client makes a new upstream socket
    and holds it, shut down or not. *)
Theorem shutdown_keeps_timer (w : World) (e : Event) (d : Z) (ms : nat) :
  e = CallDisconnect \/ e = CallStop ->
  timers w = [d] -> (d <= now w + Z.of_nat ms)%Z ->
  let w1 := after e w in
  timers w1 = [d] /\
  reconnecting w1 = reconnecting w /\
  calls_of (handle (Elapse ms) w1) = [MakeSocket (made w)] /\
  sock (after (Elapse ms) w1) = Some (made w).
Proof.
  intros He Ht Hd w1.
  assert (Hf : timers w1 = [d] /\ reconnecting w1 = reconnecting w /\
               now w1 = now w /\ made w1 = made w).
  { unfold w1. destruct He as [-> | ->]; cbn [after].
    - destruct (sock w); cbn; auto.
    - destruct (closing_fields (clients w) w)
        as (_ & _ & _ & _ & Er & En & Et & Em).
      cbv zeta. destruct (wss w), (wa w), (sock w); cbn;
        rewrite ?Er, ?En, ?Et, ?Em; auto. }
  destruct Hf as (Ht1 & Hr1 & Hn1 & Hm1). clearbody w1.
  split; [exact Ht1|]. split; [exact Hr1|].
  assert (Hdue : due_timers (set_now (now w1 + Z.of_nat ms)%Z w1) = [d]).
  { unfold due_timers. cbn [now timers set_now]. rewrite Ht1. cbn [filter].
    rewrite Hn1.
    replace (Z.leb d (now w + Z.of_nat ms)) with true
      by (symmetry; apply Z.leb_le; exact Hd). reflexivity. }
  split.
  - rewrite elapse_run. cbv zeta. cbn [calls_of snd]. rewrite Hdue, Hm1. reflexivity.
  - cbn [after]. cbv zeta. rewrite Hdue. cbn. rewrite Hm1. f_equal. lia.
Qed.

Lemma shutdown_keeps_timer_witness :
  let w := world (run [SockEvent 0 (Sample.closed_with 428)] boot) in
  calls_of (handle (Elapse 5000) (after CallStop w)) = [MakeSocket 1] /\
  sock (after (Elapse 5000) (after CallStop w)) = Some 1.
Proof.
  intros w.
  destruct (shutdown_keeps_timer w CallStop 5000 5000 (or_intror eq_refl) eq_refl)
    as (_ & _ & Hc & Hs).
  - cbn. lia.
  - split; [exact Hc|exact Hs].
Defined.

Lemma after_wa e w : wa w = false -> wa (after e w) = false.
Proof.
  intros H.
  destruct e as [ws|ws data outcome|ws|ws|ws r|s ev|ms| | |to text outcome| ];
    cbn [after]; try exact H.
  - destruct ev as [update|messages type]; [|exact H]. destruct (_ && _); exact H.
  - cbv zeta. destruct (List.length _); exact H.
  - destruct (sock w); exact H.
  - destruct (closing_fields (clients w) w) as (_ & Ha & _).
    cbv zeta. rewrite H. destruct (wss w); cbn; rewrite Ha; exact H.
Qed.

Lemma run_wa evs : forall b, wa (world b) = false -> wa (world (run evs b)) = false.
Proof.
  induction evs as [|e evs IH]; intros b H; [exact H|].
  cbn [run fold_left]. apply IH. rewrite step_world. apply after_wa, H.
Qed.

(** Once [stop()] has run, every send command is refused with the error
    "WhatsApp not connected", whatever happened since: nothing restores the
    server's client, and the upstream library is not called. *)
Theorem stopped_refuses_sends (evs : list Event) (b : Bridge) (ws : nat)
    (cmd : Value) (outcome : option JsError) :
  getProp cmd "type" = inr (VString "send") ->
  let w := world (run evs (step b CallStop)) in
  Server.on_message ws (Server.Json cmd) outcome w
  = (Ok tt, w, [WsSend ws (Server.error_frame "WhatsApp not connected")]).
Proof.
  intros Ht w.
  assert (Hwa : wa w = false).
  { unfold w. apply run_wa. rewrite step_world. cbn [after]. cbv zeta.
    destruct (closing_fields (clients (world b)) (world b)) as (_ & Ha & _).
    destruct (wa (world b)) eqn:E; [reflexivity|].
    destruct (wss (world b)); cbn; exact Ha. }
  unfold Server.on_message, try_catch, Server.handleCommand, Server.ws_send.
  unfold bind, lift, ret, throw, get, emit.
  rewrite Ht. change (strict_eq (VString "send") "send") with true.
  cbn [negb]. rewrite Hwa. reflexivity.
Qed.

Lemma stopped_refuses_sends_witness :
  calls_of (Server.on_message 7 (Server.Json Sample.send_cmd) None
              (world (run [CallConnect; SockEvent 1 Sample.opened]
                          (step boot CallStop))))
  = [WsSend 7 (Server.error_frame "WhatsApp not connected")].
Proof.
  rewrite (stopped_refuses_sends [CallConnect; SockEvent 1 Sample.opened] boot 7
             Sample.send_cmd None eq_refl).
  reflexivity.
Defined.

(** *** Inbound messages *)

(** An envelope is forwarded exactly when it is not skipped and a text can
    be extracted from it; the forwarded content is that text, never empty,
    and the timestamp is the envelope's.  So the handler's check for empty
    content never drops an extracted text. *)
Theorem forwarded_iff_extractable (msg : Proto.WAMessage) :
  (forall im, normalize msg = Some im ->
     skipped msg = false /\
     extractMessageContent msg = Some (content im) /\
     content im <> "" /\
     timestamp im = Proto.messageTimestamp msg) /\
  (forall c, skipped msg = false -> extractMessageContent msg = Some c ->
     exists im, normalize msg = Some im /\ content im = c).
Proof.
  pose proof (extract_not_empty msg) as Hne.
  unfold skipped, normalize. split.
  - intros im. destruct (truthy_bool _); [discriminate|].
    destruct (equals _ _); [discriminate|].
    destruct (extractMessageContent msg) as [[|a r]|]; try discriminate.
    intros [= <-]. cbn. repeat split. discriminate.
  - intros c Hs Hc. apply orb_false_elim in Hs. destruct Hs as [-> ->].
    rewrite Hc in *. destruct c as [|a r]; [congruence|].
    eexists. split; reflexivity.
Qed.

Lemma forwarded_iff_extractable_witness :
  exists im,
    normalize (Sample.envelope (Sample.key_of "123@g.us")
                 (Sample.captioned_document "report.pdf")) = Some im /\
    content im = "[Document] report.pdf".
Proof.
  apply (forwarded_iff_extractable
           (Sample.envelope (Sample.key_of "123@g.us")
              (Sample.captioned_document "report.pdf"))); reflexivity.
Defined.

(** The media tags do not tell media from chat: a plain text that starts
    with a tag is forwarded exactly like the media caption behind that
    tag. *)
Theorem tag_is_not_a_kind (msg1 msg2 : Proto.WAMessage) (m1 m2 : Proto.Message)
    (c : string) :
  Proto.key msg1 = Proto.key msg2 ->
  Proto.messageTimestamp msg1 = Proto.messageTimestamp msg2 ->
  Proto.message msg1 = Some m1 -> Proto.message msg2 = Some m2 ->
  no_text m2 -> truthy (Some c) = true ->
  (plain m1 = Some ("[Image] " ++ c) /\ image_caption m2 = Some c) \/
  (plain m1 = Some ("[Video] " ++ c) /\ truthy (image_caption m2) = false /\
   video_caption m2 = Some c) \/
  (plain m1 = Some ("[Document] " ++ c) /\ truthy (image_caption m2) = false /\
   truthy (video_caption m2) = false /\ document_caption m2 = Some c) ->
  normalize msg1 = normalize msg2.
Proof.
  intros Hk Ht H1 H2 [Hp Hr] Hc H.
  assert (He : extractMessageContent msg1 = extractMessageContent msg2).
  { rewrite (extract_cases msg1 m1 H1), (extract_cases msg2 m2 H2), Hp, Hr.
    destruct H as [[Ha Hb]|[(Ha & Hb & Hd)|(Ha & Hb & Hd & Hf)]];
      rewrite Ha; cbn [truthy append];
      rewrite ?Hb, ?Hd, ?Hf, ?Hc; destruct c; try discriminate; reflexivity. }
  unfold normalize. rewrite Hk, Ht, He. reflexivity.
Qed.

Lemma tag_is_not_a_kind_witness :
  normalize (Sample.envelope (Sample.key_of "123@s.whatsapp.net")
               (Sample.chat "[Document] report.pdf"))
  = normalize (Sample.envelope (Sample.key_of "123@s.whatsapp.net")
                 (Sample.captioned_document "report.pdf")).
Proof.
  apply (tag_is_not_a_kind _ _ (Sample.chat "[Document] report.pdf")
           (Sample.captioned_document "report.pdf") "report.pdf");
    try reflexivity.
  - split; reflexivity.
  - right. right. repeat split.
Defined.

Lemma sends_to_batch c w messages :
  NoDup (clients w) -> In c (clients w) -> readyState w c = OPEN ->
  sends_to c
    (flat_map (fun msg =>
       match normalize msg with
       | Some m => frames (JSON_stringify (Server.message_event m)) w (clients w)
       | None => []
       end) messages)
  = map (fun m => JSON_stringify (Server.message_event m)) (accepted messages).
Proof.
  intros Hnd Hin Ho. unfold accepted.
  induction messages as [|msg rest IH]; [reflexivity|].
  cbn [flat_map]. rewrite sends_to_app, IH.
  destruct (normalize msg) as [m|]; [|reflexivity].
  rewrite (sends_to_frames _ w c _ Hnd Hin), Ho. reflexivity.
Qed.

(** Of a [notify] batch, each open registered connection gets one frame
    per forwarded envelope, in the order of the batch; a batch of any other
    type is dropped whole. *)
Theorem batch_forwarded_in_order (b : Bridge) (c s : nat)
    (messages : list Proto.WAMessage) :
  Reachable b -> s < made (world b) ->
  In c (clients (world b)) -> readyState (world b) c = OPEN ->
  sends_to c
    (calls_of (handle (SockEvent s (MessagesUpsert messages "notify")) (world b)))
  = map (fun m => JSON_stringify (Server.message_event m)) (accepted messages) /\
  (forall type, String.eqb type "notify" = false ->
     calls_of (handle (SockEvent s (MessagesUpsert messages type)) (world b)) = []).
Proof.
  intros Hr Hs Hin Ho.
  pose proof (inv_clients b (reachable_inv b Hr)) as Hnd.
  assert (Hlt : Nat.ltb s (made (world b)) = true) by (apply Nat.ltb_lt; exact Hs).
  split.
  - rewrite sock_event_run, Hlt, on_messages_upsert_run. cbn [calls_of snd].
    replace (("notify" =? "notify")%string) with true by reflexivity.
    apply sends_to_batch; assumption.
  - intros type Ht. rewrite sock_event_run, Hlt, on_messages_upsert_run, Ht.
    reflexivity.
Qed.

Lemma batch_forwarded_in_order_witness :
  let b := run [WsConnection 5] boot in
  let own := Sample.envelope Sample.own_key (Sample.chat "mine") in
  let m1 := Sample.envelope (Sample.key_of "1@s.whatsapp.net") (Sample.chat "one") in
  let m2 := Sample.envelope (Sample.key_of "2@g.us") Sample.voice in
  sends_to 5
    (calls_of (handle (SockEvent 0 (MessagesUpsert [m1; own; m2] "notify")) (world b)))
  = [JSON_stringify
       (Server.message_event
          (Build_InboundMessage "3EB0A1" "1@s.whatsapp.net" "" "one" 1700000000 false));
     JSON_stringify
       (Server.message_event
          (Build_InboundMessage "3EB0A1" "2@g.us" "" "[Voice Message]" 1700000000
             true))].
Proof.
  intros b own m1 m2.
  assert (Hr : Reachable b) by (eexists; reflexivity).
  destruct (batch_forwarded_in_order b 5 0 [m1; own; m2] Hr) as [H _].
  - cbn. lia.
  - left. reflexivity.
  - reflexivity.
  - rewrite H. reflexivity.
Defined.

(** *** Commands *)

(** Whatever arrives on a connection, well-formed or not and whether or
    not the upstream accepts it, the handler writes exactly one frame to
    that connection and none to any other, calls the upstream at most once,
    throws nothing and changes no field. *)
Theorem one_reply_per_frame (w : World) (ws : nat) (data : Server.Parsed)
    (outcome : option JsError) :
  let r := Server.on_message ws data outcome w in
  result_of r = Ok tt /\
  world_of r = w /\
  (exists reply, sends_to ws (calls_of r) = [reply]) /\
  (forall c, c <> ws -> sends_to c (calls_of r) = []) /\
  count is_SockSend (calls_of r) <= 1.
Proof.
  cbv zeta. destruct (on_message_quiet ws data outcome w) as [Hres Hw].
  split; [exact Hres|]. split; [exact Hw|].
  destruct (on_message_calls ws data outcome w)
    as [reply [H|(s & to & text & _ & H)]]; rewrite H.
  - split; [exists reply; cbn; rewrite Nat.eqb_refl; reflexivity|].
    split; [|cbn; lia].
    intros c Hc. cbn. replace (Nat.eqb ws c) with false; [reflexivity|].
    symmetry. apply Nat.eqb_neq. congruence.
  - split; [exists reply; cbn; rewrite Nat.eqb_refl; reflexivity|].
    split; [|cbn; lia].
    intros c Hc. cbn. replace (Nat.eqb ws c) with false; [reflexivity|].
    symmetry. apply Nat.eqb_neq. congruence.
Qed.

Lemma one_reply_per_frame_witness :
  sends_to 2 (calls_of (Server.on_message 1 (Server.Json Sample.send_cmd)
                          (Some (Error "Connection Closed"))
                          (world (run [WsConnection 1; WsConnection 2] boot))))
  = [].
Proof.
  apply (one_reply_per_frame
           (world (run [WsConnection 1; WsConnection 2] boot)) 1
           (Server.Json Sample.send_cmd) (Some (Error "Connection Closed"))).
  discriminate.
Defined.

(** A send command is not validated: without a [to] field it is still
    handed to the upstream socket, with an undefined target, and the
    acknowledgement then carries no [to] either. *)
Theorem send_without_target (w : World) (ws s : nat)
    (props : list (string * Value)) :
  wa w = true -> sock w = Some s ->
  lookup "type" props = Some (VString "send") -> lookup "to" props = None ->
  calls_of (Server.on_message ws (Server.Json (VObject props)) None w)
  = [SockSend s VUndefined
       (match lookup "text" props with Some x => x | None => VUndefined end);
     WsSend ws (JSON_stringify [("type", VString "sent")])].
Proof.
  intros Hwa Hs Ht Hto.
  unfold Server.on_message, try_catch, Server.handleCommand, Server.ws_send.
  unfold bind, lift, ret, throw, get, emit, getProp.
  rewrite Ht. change (strict_eq (VString "send") "send") with true.
  cbn [negb]. rewrite Hwa. cbn [negb]. rewrite Hto, sendMessage_run, Hs.
  reflexivity.
Qed.

Lemma send_without_target_witness :
  calls_of (Server.on_message 7
              (Server.Json (VObject [("type", VString "send"); ("text", VString "hi")]))
              None (world boot))
  = [SockSend 0 VUndefined (VString "hi");
     WsSend 7 (JSON_stringify [("type", VString "sent")])].
Proof.
  apply (send_without_target (world boot) 7 0
           [("type", VString "send"); ("text", VString "hi")]); reflexivity.
Defined.

(** The reply to a frame that parses but is no command object: [null]
    gets the text of the TypeError that reading its [type] throws; a number,
    a string, a boolean, an array, or an object without [type] gets
    "unknown command type: undefined". *)
Theorem reply_by_shape (w : World) (ws : nat) (v : Value)
    (outcome : option JsError) :
  (v = VNull ->
   calls_of (Server.on_message ws (Server.Json v) outcome w)
   = [WsSend ws (Server.error_frame
                   "TypeError: Cannot read properties of null (reading 'type')")]) /\
  (is_primitive_or_array v = true \/
   (exists props, v = VObject props /\ lookup "type" props = None) ->
   calls_of (Server.on_message ws (Server.Json v) outcome w)
   = [WsSend ws (Server.error_frame "unknown command type: undefined")]).
Proof.
  split.
  - intros ->. reflexivity.
  - intros [H|(props & -> & H)].
    + destruct v; try discriminate H; reflexivity.
    + unfold Server.on_message, try_catch, Server.handleCommand, Server.ws_send.
      unfold bind, lift, ret, throw, get, emit, getProp. rewrite H. reflexivity.
Qed.

Lemma reply_by_shape_witness :
  calls_of (Server.on_message 3 (Server.Json (VArray [VString "send"])) None
              (world boot))
  = [WsSend 3 (Server.error_frame "unknown command type: undefined")].
Proof.
  apply (reply_by_shape (world boot) 3 (VArray [VString "send"]) None).
  left. reflexivity.
Defined.

(** *** Connection updates and the reconnect *)

Lemma sends_to_qr_calls c update w :
  NoDup (clients w) -> In c (clients w) -> readyState w c = OPEN ->
  sends_to c (qr_calls update w)
  = if truthy (Proto.qr update)
    then [JSON_stringify (qr_event (or_else (Proto.qr update) ""))]
    else [].
Proof.
  intros Hnd Hin Ho. unfold qr_calls.
  destruct (Proto.qr update) as [[|a r]|]; try reflexivity.
  cbn [truthy or_else]. change (sends_to c (QrPrint (String a r) :: ?l))
    with (sends_to c l).
  rewrite (sends_to_frames _ w c _ Hnd Hin), Ho. reflexivity.
Qed.

(** What one [connection.update] writes to an open registered connection:
    the qr frame if the update carries a non-empty code, then one status
    frame if the update closes or opens the connection; an update that does
    neither writes nothing. *)
Theorem update_frames_in_order (b : Bridge) (c s : nat)
    (update : Proto.ConnectionState) :
  Reachable b -> s < made (world b) ->
  In c (clients (world b)) -> readyState (world b) c = OPEN ->
  sends_to c
    (calls_of (handle (SockEvent s (ConnectionUpdate update)) (world b)))
  = update_frames update.
Proof.
  intros Hr Hs Hin Ho.
  pose proof (inv_clients b (reachable_inv b Hr)) as Hnd.
  assert (Hlt : Nat.ltb s (made (world b)) = true) by (apply Nat.ltb_lt; exact Hs).
  assert (Hst : forall status,
             sends_to c (frames (JSON_stringify (status_event status)) (world b)
                           (clients (world b)))
             = [JSON_stringify (status_event status)]).
  { intros status. rewrite (sends_to_frames _ _ c _ Hnd Hin), Ho. reflexivity. }
  rewrite sock_event_run, Hlt, on_connection_update_run. unfold update_frames.
  destruct (is_close update).
  - destruct (shouldReconnect (statusCode_of update)
              && negb (reconnecting (world b)));
      cbn [calls_of snd]; rewrite !sends_to_app, sends_to_qr_calls by assumption;
      unfold disconnected_frames; rewrite Hst; rewrite ?app_nil_r; reflexivity.
  - destruct (is_open_update update); cbn [calls_of snd].
    + rewrite sends_to_app, sends_to_qr_calls by assumption.
      unfold connected_frames. rewrite Hst. reflexivity.
    + rewrite sends_to_qr_calls by assumption. rewrite app_nil_r. reflexivity.
Qed.

Lemma update_frames_in_order_witness :
  sends_to 5
    (calls_of (handle
       (SockEvent 0
          (ConnectionUpdate
             (Proto.Build_ConnectionState (Some "open") None (Some "2@AbCd"))))
       (world (run [WsConnection 5] boot))))
  = [JSON_stringify (qr_event "2@AbCd"); JSON_stringify (status_event "connected")].
Proof.
  assert (Hr : Reachable (run [WsConnection 5] boot)) by (eexists; reflexivity).
  rewrite (update_frames_in_order (run [WsConnection 5] boot) 5 0 _ Hr).
  - reflexivity.
  - cbn. lia.
  - left. reflexivity.
  - reflexivity.
Defined.

(** The [reconnecting] flag is set exactly while a reconnect timer is
    pending, and a pending timer is due later than now and within 5000 ms. *)
Theorem flag_tracks_timer (b : Bridge) :
  Reachable b ->
  (reconnecting (world b) = true <-> timers (world b) <> []) /\
  (forall d, In d (timers (world b)) ->
     (now (world b) < d <= now (world b) + 5000)%Z).
Proof.
  intros Hr. pose proof (inv_timer b (reachable_inv b Hr)) as H.
  unfold timer_inv in H. destruct (reconnecting (world b)).
  - destruct H as (d & -> & Hd). split.
    + split; [discriminate|reflexivity].
    + intros d' [<-|[]]. exact Hd.
  - rewrite H. split.
    + split; [discriminate|intros Hn; contradiction].
    + intros d [].
Qed.

Lemma flag_tracks_timer_witness :
  let b := run [SockEvent 0 (Sample.closed_with 428); Elapse 1500;
                SockEvent 0 (Sample.closed_with 500)] boot in
  reconnecting (world b) = true /\ (1500 < 5000 <= 1500 + 5000)%Z.
Proof.
  intros b.
  assert (Hr : Reachable b) by (eexists; reflexivity).
  destruct (flag_tracks_timer b Hr) as [Hf Hd].
  split; [apply Hf; discriminate|].
  apply (Hd 5000%Z). left. reflexivity.
Defined.


